(** * mitremappingv3.py: top-3 ATT&CK technique matching

    A shallow embedding of [find_similar_techniques], [update_progress],
    [on_submit] and [check_queue] of
    [MITRE AI Mapping/archive/mitremappingv3.py].

    Conventions.
    - A Python float (a cosine similarity) is a rational or IEEE negative
      zero (type [pyfloat]); NaN and infinities are outside the model.
    - The third-party calls ([model.encode], [lift.get_techniques],
      [util.pytorch_cos_sim], [np.argsort]) are not code of the program.
      The first three are oracles that either raise or return a value
      (record [libs]); [np.argsort] is an interface ([ArgSort]) with the
      contract of its documentation ([ArgSortLaws]).
    - An exception is represented by its message, [str(e)]. *)

From Stdlib Require Import String Ascii List Bool Arith ZArith QArith Qabs Lia Lqa.
From Stdlib Require Import Sorting.Permutation Sorting.Sorted.
Import ListNotations.

Local Open Scope string_scope.
Local Open Scope list_scope.

(** ** Python values used by the program *)

Definition exn := string.

(** [default.get(key, d)] on a field that may be absent. *)
Definition get {A : Type} (field : option A) (d : A) : A :=
  match field with
  | Some v => v
  | None => d
  end.

(** [sep.join(parts)]. *)
Definition join (sep : string) (parts : list string) : string :=
  String.concat sep parts.

(** A float that is neither NaN nor infinite.  [Float q] with [q == 0] is
    +0.0 and [NegZero] is -0.0: the two compare equal and are written
    differently. *)
Inductive pyfloat :=
| Float (q : Q)
| NegZero.

(** The number a float denotes. *)
Definition number (x : pyfloat) : Q :=
  match x with
  | Float q => q
  | NegZero => 0
  end.

(** [-x]. *)
Definition neg (x : pyfloat) : pyfloat :=
  match x with
  | Float q => if Qeq_bool q 0 then NegZero else Float (- q)
  | NegZero => Float 0
  end.

(** The sign bit of [x]. *)
Definition signbit (x : pyfloat) : bool :=
  match x with
  | Float q => negb (Qle_bool 0 q)
  | NegZero => true
  end.

(** ** np.argsort *)

Module Numpy.

(** [a[i]] for an index produced by the library (0 outside the array,
    which the contract below excludes). *)
Definition item (a : list Q) (i : nat) : Q := nth i a 0%Q.

(** [np.argsort(a)] with the default [kind]. *)
Class ArgSort := {
  argsort : list Q -> list nat
}.

(** What the documentation of [np.argsort] promises: "returns the
    indices that would sort an array", a rearrangement of
    [0 .. len(a)-1] along which [a] is ascending.  The default algorithm
    is listed there as not stable, so nothing is promised on ties. *)
Class ArgSortLaws (A : ArgSort) : Prop := {
  argsort_perm : forall a, Permutation (argsort a) (seq 0 (length a));
  argsort_sorted :
    forall a, StronglySorted (fun i j => (item a i <= item a j)%Q) (argsort a)
}.

(** An index sort is stable when equal keys keep their input order. *)
Definition Stable (A : ArgSort) : Prop :=
  forall a, StronglySorted
              (fun i j => (item a i == item a j)%Q -> (i < j)%nat)
              (@argsort A a).

(** Insertion of index [i] in a list of indices, before the first [j]
    with [before i j]. *)
Fixpoint insert (before : nat -> nat -> bool) (i : nat) (l : list nat)
  : list nat :=
  match l with
  | [] => [i]
  | j :: l' => if before i j then i :: l else j :: insert before i l'
  end.

Definition insertion_argsort (before : list Q -> nat -> nat -> bool)
           (a : list Q) : list nat :=
  fold_right (insert (before a)) [] (seq 0 (length a)).

(** Ties keep the input order: [i] goes before an equal [j]. *)
Definition before_le (a : list Q) (i j : nat) : bool :=
  Qle_bool (item a i) (item a j).

(** Ties are reversed: [i] goes after every equal [j]. *)
Definition before_lt (a : list Q) (i j : nat) : bool :=
  negb (Qle_bool (item a j) (item a i)).

(** The insertion sort that keeps ties in input order. *)
Definition stable_argsort : ArgSort :=
  {| argsort := insertion_argsort before_le |}.

(** The insertion sort that lists ties in reverse input order.  Like the
    default kind of [np.argsort] it meets the contract without being
    stable; it is one index sort within the contract, not the algorithm
    of numpy. *)
Definition reversing_argsort : ArgSort :=
  {| argsort := insertion_argsort before_lt |}.

End Numpy.

Import Numpy.

(** ** Data model *)

(** A technique as [lift.get_techniques(stix_format=False)] returns it: a
    dict of which the program reads four keys.  [None] is an absent key. *)
Record raw_technique := {
  technique_id : option string;
  technique : option string;
  technique_description : option string;
  tactic : option (list string)
}.

(** An entry of [technique_details] (keys 'id', 'name', 'description',
    'tactic'). *)
Module Detail.
Record t := make {
  id : string;
  name : string;
  description : string;
  tactic : string
}.
End Detail.

(** [{**technique_details[index], 'similarity': ...}]. *)
Record scored_match := {
  detail : Detail.t;
  similarity : pyfloat
}.

Definition embedding := list Q.

(** Lines 60-65: the dict appended for one technique. *)
Definition technique_detail (technique0 : raw_technique) : Detail.t :=
  {| Detail.id := get (technique_id technique0) "No ID";
     Detail.name := get (technique technique0) "No Name";
     Detail.description :=
       get (technique_description technique0) "No Description";
     Detail.tactic := join ", " (get (tactic technique0) []) |}.

(** ** Ranking (lines 70-72) *)

(** [l[i]] on a Python list. *)
Definition getitem {A : Type} (l : list A) (i : nat) : exn + A :=
  match nth_error l i with
  | Some x => inr x
  | None => inl "list index out of range"
  end.

Section Ranking.
Context {NP : ArgSort}.

(** The numbers [np.argsort] compares in line 71: those of
    [-similarities[0]]. *)
Definition keys (similarities0 : list pyfloat) : list Q :=
  map number (map neg similarities0).

(** [np.argsort(-similarities[0])[:3]]. *)
Definition top_matches_indices (similarities0 : list pyfloat) : list nat :=
  firstn 3 (argsort (keys similarities0)).

(** The comprehension of line 72 over a list of indices. *)
Fixpoint matches_at (technique_details : list Detail.t)
         (similarities0 : list pyfloat) (indices : list nat)
  : exn + list scored_match :=
  match indices with
  | [] => inr []
  | index :: rest =>
      match getitem technique_details index with
      | inl e => inl e
      | inr d =>
          match getitem similarities0 index with
          | inl e => inl e
          | inr s =>
              match matches_at technique_details similarities0 rest with
              | inl e => inl e
              | inr ms => inr ({| detail := d; similarity := s |} :: ms)
              end
          end
      end
  end.

Definition top_matches (technique_details : list Detail.t)
           (similarities0 : list pyfloat) : exn + list scored_match :=
  matches_at technique_details similarities0
             (top_matches_indices similarities0).
End Ranking.

(** ** Result text (line 75) *)

Definition nl : string := String (ascii_of_nat 10) "".

(** Round to the nearest integer, ties to even: the rounding of Python's
    float formatting. *)
Definition round_half_even (q : Q) : Z :=
  let n := Qnum q in
  let d := Z.pos (Qden q) in
  let f := (n / d)%Z in
  match (2 * (n mod d) ?= d)%Z with
  | Lt => f
  | Gt => (f + 1)%Z
  | Eq => if Z.even f then f else (f + 1)%Z
  end.

Definition digit (n : Z) : ascii :=
  ascii_of_nat (48 + Z.to_nat (n mod 10)).

(** Decimal numeral of a natural number, most significant digit first.
    [fuel] bounds the number of digits. *)
Fixpoint decimal_digits (fuel : nat) (n : Z) : string :=
  match fuel with
  | O => ""
  | S fuel' =>
      if (n <? 10)%Z then String (digit n) ""
      else decimal_digits fuel' (n / 10) ++ String (digit n) ""
  end.

Definition decimal (n : Z) : string :=
  decimal_digits (S (Z.to_nat (Z.log2 n))) n.

(** The four digits after the point of [m / 10000]. *)
Definition fraction4 (m : Z) : string :=
  String (digit (m / 1000))
    (String (digit (m / 100)) (String (digit (m / 10)) (String (digit m) ""))).

(** [f"{x:.4f}"]: the sign, then the magnitude rounded to four
    decimals. *)
Definition format_4f (x : pyfloat) : string :=
  let m := Z.abs (round_half_even (number x * 10000)) in
  (if signbit x then "-" else "")
    ++ decimal (m / 10000) ++ "." ++ fraction4 (m mod 10000).

(** The f-string of line 75 for one match. *)
Definition format_match (m : scored_match) : string :=
  "ID: " ++ Detail.id (detail m) ++ nl
  ++ "Name: " ++ Detail.name (detail m) ++ nl
  ++ "Tactic: " ++ Detail.tactic (detail m) ++ nl
  ++ "Similarity: " ++ format_4f (similarity m).

Definition format_result (top : list scored_match) : string :=
  join (nl ++ nl) (map format_match top).

(** ** Effects of the background task *)

(** What a worker thread does that is visible outside it, in order. *)
Inductive action :=
| CallEncode (text : string)            (* model.encode(sentence, ...) *)
| CallGetTechniques                     (* lift.get_techniques(...) *)
| CallEncodeBatch (texts : list string) (* model.encode([...], ...) *)
| CallCosSim                            (* util.pytorch_cos_sim(...) *)
| SetProgress (value : Z)               (* progress_bar['value'] = value *)
| UpdateIdletasks                       (* root.update_idletasks() *)
| ShowError (title message : string)    (* messagebox.showerror(...) *)
| QueuePut (item : string).             (* result_queue.put(item) *)

(** The answers of the third-party libraries to one run of the task. *)
Record libs := {
  model_encode : string -> exn + embedding;
  lift_get_techniques : exn + list raw_technique;
  model_encode_batch : list string -> exn + list embedding;
  pytorch_cos_sim : embedding -> list embedding -> exn + list (list pyfloat)
}.

(** A computation that performs actions and then returns or raises. *)
Definition W (A : Type) : Type := (list action * (exn + A))%type.

Definition ret {A : Type} (a : A) : W A := ([], inr a).

Definition lift {A : Type} (r : exn + A) : W A := ([], r).

Definition perform (a : action) : W unit := ([a], inr tt).

Definition call {A : Type} (a : action) (answer : exn + A) : W A :=
  ([a], answer).

Definition bind {A B : Type} (c : W A) (k : A -> W B) : W B :=
  match c with
  | (t, inl e) => (t, inl e)
  | (t, inr a) => let (t', r) := k a in (t ++ t', r)
  end.

(** [try: body except Exception as e: handler(e)]. *)
Definition try_except {A : Type} (body : W A) (handler : exn -> W A) : W A :=
  match body with
  | (t, inl e) => let (t', r) := handler e in (t ++ t', r)
  | (t, inr a) => (t, inr a)
  end.

Declare Scope W_scope.
Delimit Scope W_scope with W.
Notation "x <- c ;; k" := (bind c (fun x => k))
  (at level 61, c at next level, right associativity) : W_scope.
Notation "c ;; k" := (bind c (fun _ => k))
  (at level 61, right associativity) : W_scope.

(** Lines 79-84. *)
Definition update_progress (value : Z) : W unit :=
  (perform (SetProgress value) ;; perform UpdateIdletasks)%W.

Section Task.
Context {NP : ArgSort}.
Variable L : libs.

(** Lines 39-77.  A [try] block whose handler returns from the function
    yields [None]. *)
Definition find_similar_techniques (sentence : string)
           (progress_callback : Z -> W unit) : W unit :=
  (r1 <- try_except
           (sentence_embedding <-
              call (CallEncode sentence) (model_encode L sentence) ;;
            progress_callback 20%Z ;;
            ret (Some sentence_embedding))
           (fun e =>
              perform (ShowError "Error" ("Error encoding sentence: " ++ e)) ;;
              ret None) ;;
   match r1 with
   | None => ret tt
   | Some sentence_embedding =>
       r2 <- try_except
               (techniques <-
                  call CallGetTechniques (lift_get_techniques L) ;;
                progress_callback 50%Z ;;
                ret (Some techniques))
               (fun e =>
                  perform
                    (ShowError "Error"
                       ("Error fetching techniques from MITRE ATT&CK database: "
                          ++ e)) ;;
                  ret None) ;;
       match r2 with
       | None => ret tt
       | Some techniques =>
           let technique_details := map technique_detail techniques in
           let descriptions := map Detail.description technique_details in
           descriptions_embeddings <-
             call (CallEncodeBatch descriptions)
                  (model_encode_batch L descriptions) ;;
           similarities <-
             call CallCosSim
                  (pytorch_cos_sim L sentence_embedding
                                   descriptions_embeddings) ;;
           similarities0 <- lift (getitem similarities 0) ;;
           top <- lift (top_matches technique_details similarities0) ;;
           let result_text := format_result top in
           perform (QueuePut result_text) ;;
           progress_callback 100%Z
       end
   end)%W.
End Task.

(** ** The window and its event loop *)

(** [str.isspace] on the code points below 256. *)
Definition isspace (c : ascii) : bool :=
  let n := nat_of_ascii c in
  ((9 <=? n) && (n <=? 13) || (28 <=? n) && (n <=? 32)
   || (n =? 133) || (n =? 160))%nat.

Definition is_empty (s : string) : bool :=
  match s with
  | EmptyString => true
  | String _ _ => false
  end.

Fixpoint lstrip (s : string) : string :=
  match s with
  | EmptyString => EmptyString
  | String c s' => if isspace c then lstrip s' else s
  end.

Fixpoint rstrip (s : string) : string :=
  match s with
  | EmptyString => EmptyString
  | String c s' =>
      let r := rstrip s' in
      if isspace c && is_empty r then EmptyString else String c r
  end.

(** [s.strip()]. *)
Definition strip (s : string) : string := rstrip (lstrip s).

Inductive dialog :=
| InfoBox (title message : string)    (* messagebox.showinfo *)
| ErrorBox (title message : string).  (* messagebox.showerror *)

(** The module-level state: the progress bar, the result widget, the
    queue, the dialogs shown so far and, for each thread started, the
    actions it has still to perform. *)
Record gui := {
  progress_bar : Z;
  result_text : string;
  result_queue : list string;
  dialogs : list dialog;
  threads : list (list action)
}.

Definition set_threads (st : gui) (ts : list (list action)) : gui :=
  {| progress_bar := progress_bar st;
     result_text := result_text st;
     result_queue := result_queue st;
     dialogs := dialogs st;
     threads := ts |}.

(** The effect of one action of a worker on the shared state. *)
Definition perform_action (a : action) (st : gui) : gui :=
  match a with
  | SetProgress value =>
      {| progress_bar := value;
         result_text := result_text st;
         result_queue := result_queue st;
         dialogs := dialogs st;
         threads := threads st |}
  | ShowError title message =>
      {| progress_bar := progress_bar st;
         result_text := result_text st;
         result_queue := result_queue st;
         dialogs := dialogs st ++ [ErrorBox title message];
         threads := threads st |}
  | QueuePut item =>
      {| progress_bar := progress_bar st;
         result_text := result_text st;
         result_queue := result_queue st ++ [item];
         dialogs := dialogs st;
         threads := threads st |}
  | _ => st
  end.

Section Window.
Context {NP : ArgSort}.

(** Lines 86-97; [sentence] is the content of the entry widget and [L]
    what the libraries will answer to the thread started. *)
Definition on_submit (L : libs) (sentence : string) (st : gui) : gui :=
  if is_empty (strip sentence) then
    {| progress_bar := progress_bar st;
       result_text := result_text st;
       result_queue := result_queue st;
       dialogs := dialogs st ++ [InfoBox "Info" "Please enter a sentence."];
       threads := threads st |}
  else
    {| progress_bar := 0;
       result_text := "";
       result_queue := result_queue st;
       dialogs := dialogs st;
       threads :=
         threads st
         ++ [fst (find_similar_techniques L sentence update_progress)] |}.

(** Lines 99-108, one timer tick. *)
Definition check_queue (st : gui) : gui :=
  match result_queue st with
  | [] => st
  | result :: rest =>
      {| progress_bar := progress_bar st;
         result_text := result_text st ++ result;
         result_queue := rest;
         dialogs := dialogs st;
         threads := threads st |}
  end.

(** Thread [i] performs its next action, if it has one. *)
Definition worker_step (i : nat) (st : gui) : gui :=
  match nth_error (threads st) i with
  | Some (a :: todo) =>
      perform_action a
        (set_threads st (firstn i (threads st) ++ todo
                                :: skipn (S i) (threads st)))
  | _ => st
  end.

(** What the scheduler can do next. *)
Inductive event :=
| Submit (L : libs) (sentence : string)
| WorkerStep (i : nat)
| Tick.

Definition step (ev : event) (st : gui) : gui :=
  match ev with
  | Submit L sentence => on_submit L sentence st
  | WorkerStep i => worker_step i st
  | Tick => check_queue st
  end.

Definition run (schedule : list event) (st : gui) : gui :=
  fold_left (fun s ev => step ev s) schedule st.

Definition is_submit (ev : event) : bool :=
  match ev with
  | Submit _ _ => true
  | _ => false
  end.
End Window.

(** The state when the main loop starts (lines 110-136). *)
Definition initial : gui :=
  {| progress_bar := 0;
     result_text := "";
     result_queue := [];
     dialogs := [];
     threads := [] |}.

(** * Vocabulary of the properties *)

(** ** Ranking *)

(** Each match carries the detail and the similarity found at its index. *)
Definition match_at (technique_details : list Detail.t)
           (similarities0 : list pyfloat) (index : nat) (m : scored_match)
  : Prop :=
  nth_error technique_details index = Some (detail m)
  /\ nth_error similarities0 index = Some (similarity m).

(** The similarity of candidate [i], as a number. *)
Definition score (similarities0 : list pyfloat) (i : nat) : Q :=
  item (map number similarities0) i.

(** Candidates tied on similarity that are both returned come in input
    order. *)
Definition ties_keep_input_order (similarities0 : list pyfloat)
           (indices : list nat) : Prop :=
  StronglySorted
    (fun i j => (score similarities0 i == score similarities0 j)%Q ->
                (i < j)%nat)
    indices.

(** The selection a stable sort makes: candidates tied on similarity are
    taken in input order, so a returned candidate is preceded by every
    earlier candidate that ties with it. *)
Definition ties_taken_in_input_order (similarities0 : list pyfloat)
           (indices : list nat) : Prop :=
  ties_keep_input_order similarities0 indices
  /\ forall i j,
      (i < j < length similarities0)%nat ->
      (score similarities0 i == score similarities0 j)%Q ->
      In j indices -> In i indices.

(** Similarities do not increase along the list of matches. *)
Definition non_increasing (ms : list scored_match) : Prop :=
  StronglySorted
    (fun m m' => (number (similarity m') <= number (similarity m))%Q) ms.

(** Two entries of [technique_details]. *)
Definition T1566 : Detail.t :=
  Detail.make "T1566" "Phishing" "Adversaries may send phishing messages."
              "initial-access".

Definition T1204 : Detail.t :=
  Detail.make "T1204" "User Execution" "An adversary may rely on a user."
              "execution".

(** A technique without any of the four keys. *)
Definition bare_technique : raw_technique :=
  {| technique_id := None; technique := None;
     technique_description := None; tactic := None |}.

(** ** Input and traces *)

(** The string is empty or consists of white space only. *)
Fixpoint all_space (s : string) : bool :=
  match s with
  | EmptyString => true
  | String c s' => isspace c && all_space s'
  end.

(** The values passed to the progress callback, in order. *)
Fixpoint progress_calls (t : list action) : list Z :=
  match t with
  | [] => []
  | SetProgress value :: t' => value :: progress_calls t'
  | _ :: t' => progress_calls t'
  end.

(** The items put on the queue, in order. *)
Fixpoint puts (t : list action) : list string :=
  match t with
  | [] => []
  | QueuePut item :: t' => item :: puts t'
  | _ :: t' => puts t'
  end.

(** The calls to the two providers, in order. *)
Fixpoint provider_calls (t : list action) : list action :=
  match t with
  | [] => []
  | CallEncode text :: t' => CallEncode text :: provider_calls t'
  | CallGetTechniques :: t' => CallGetTechniques :: provider_calls t'
  | CallEncodeBatch texts :: t' => CallEncodeBatch texts :: provider_calls t'
  | _ :: t' => provider_calls t'
  end.

(** The two dialogs of lines 47 and 54. *)
Definition encoding_error (e : exn) : action :=
  ShowError "Error" ("Error encoding sentence: " ++ e).

Definition fetching_error (e : exn) : action :=
  ShowError "Error"
            ("Error fetching techniques from MITRE ATT&CK database: " ++ e).

(** The actions up to the first and up to the second milestone. *)
Definition encoded (sentence : string) : list action :=
  [CallEncode sentence; SetProgress 20; UpdateIdletasks].

Definition fetched (sentence : string) : list action :=
  encoded sentence ++ [CallGetTechniques; SetProgress 50; UpdateIdletasks].

(** The texts of line 67. *)
Definition descriptions_of (techniques : list raw_technique) : list string :=
  map Detail.description (map technique_detail techniques).

(** The four ways a run of the task can go. *)
Inductive task_run {NP : ArgSort} (L : libs) (sentence : string)
  : W unit -> Prop :=
| EncodingFailure (e : exn) :
    model_encode L sentence = inl e ->
    task_run L sentence
             ([CallEncode sentence; encoding_error e], inr tt)
| FetchFailure (sentence_embedding : embedding) (e : exn) :
    model_encode L sentence = inr sentence_embedding ->
    lift_get_techniques L = inl e ->
    task_run L sentence
             (encoded sentence ++ [CallGetTechniques; fetching_error e],
              inr tt)
| RankingFailure (sentence_embedding : embedding)
                 (techniques : list raw_technique) (t : list action)
                 (e : exn) :
    model_encode L sentence = inr sentence_embedding ->
    lift_get_techniques L = inr techniques ->
    t = [CallEncodeBatch (descriptions_of techniques)]
    \/ t = [CallEncodeBatch (descriptions_of techniques); CallCosSim] ->
    task_run L sentence (fetched sentence ++ t, inl e)
| Completed (sentence_embedding : embedding)
            (techniques : list raw_technique)
            (descriptions_embeddings : list embedding)
            (similarities : list (list pyfloat))
            (similarities0 : list pyfloat)
            (top : list scored_match) :
    model_encode L sentence = inr sentence_embedding ->
    lift_get_techniques L = inr techniques ->
    model_encode_batch L (descriptions_of techniques)
    = inr descriptions_embeddings ->
    pytorch_cos_sim L sentence_embedding descriptions_embeddings
    = inr similarities ->
    getitem similarities 0 = inr similarities0 ->
    top_matches (map technique_detail techniques) similarities0 = inr top ->
    task_run L sentence
             (fetched sentence
              ++ [CallEncodeBatch (descriptions_of techniques); CallCosSim;
                  QueuePut (format_result top);
                  SetProgress 100; UpdateIdletasks],
              inr tt).

(** ** Schedules *)

Definition concat_all (l : list string) : string :=
  fold_right append "" l.

(** The text a user has seen or will see without further work of the
    threads: the display followed by the queued results. *)
Definition delivered (st : gui) : string :=
  (result_text st ++ concat_all (result_queue st))%string.

(** The results the threads have still to put. *)
Definition pending (st : gui) : list string :=
  flat_map puts (threads st).

(** No submission happens during the schedule. *)
Definition no_submit (schedule : list event) : Prop :=
  Forall (fun ev => is_submit ev = false) schedule.

(** ** Sample answers of the libraries *)

Definition phishing : raw_technique :=
  {| technique_id := Some "T1566";
     technique := Some "Phishing";
     technique_description := Some "Adversaries may send phishing messages.";
     tactic := Some ["initial-access"] |}.

Definition user_execution : raw_technique :=
  {| technique_id := Some "T1204";
     technique := Some "User Execution";
     technique_description := Some "An adversary may rely on a user.";
     tactic := Some ["execution"] |}.

(** Both providers answer; the similarity matrix has the single row [row]. *)
Definition answering (row : list Q) : libs :=
  {| model_encode := fun _ => inr [1; 0];
     lift_get_techniques := inr [user_execution; phishing];
     model_encode_batch := fun texts => inr (map (fun _ => [1; 0]) texts);
     pytorch_cos_sim := fun _ _ => inr [map Float row] |}.

(** Encoding the query raises. *)
Definition model_down : libs :=
  {| model_encode := fun _ => inl "model not loaded";
     lift_get_techniques := inr [user_execution; phishing];
     model_encode_batch := fun texts => inr (map (fun _ => [1; 0]) texts);
     pytorch_cos_sim := fun _ _ => inr [map Float [34 # 100; 81 # 100]] |}.

(** Fetching the techniques raises. *)
Definition corpus_down : libs :=
  {| model_encode := fun _ => inr [1; 0];
     lift_get_techniques := inl "connection refused";
     model_encode_batch := fun texts => inr (map (fun _ => [1; 0]) texts);
     pytorch_cos_sim := fun _ _ => inr [map Float [34 # 100; 81 # 100]] |}.

(** The result texts of the two sample submissions. *)
Definition first_result : string :=
  "ID: T1566" ++ nl ++ "Name: Phishing" ++ nl ++ "Tactic: initial-access"
  ++ nl ++ "Similarity: 0.8100" ++ nl ++ nl
  ++ "ID: T1204" ++ nl ++ "Name: User Execution" ++ nl ++ "Tactic: execution"
  ++ nl ++ "Similarity: 0.3400".

Definition second_result : string :=
  "ID: T1204" ++ nl ++ "Name: User Execution" ++ nl ++ "Tactic: execution"
  ++ nl ++ "Similarity: 0.9000" ++ nl ++ nl
  ++ "ID: T1566" ++ nl ++ "Name: Phishing" ++ nl ++ "Tactic: initial-access"
  ++ nl ++ "Similarity: 0.1250".

(** ** The progress bar and the display *)

(** After [SetProgress 100] a thread puts nothing more. *)
Fixpoint quiet_after_100 (t : list action) : bool :=
  match t with
  | [] => true
  | SetProgress value :: t' =>
      (if (value =? 100)%Z then
         match puts t' with [] => true | _ :: _ => false end
       else true)
      && quiet_after_100 t'
  | _ :: t' => quiet_after_100 t'
  end.

(** One thread is running; it is quiet after 100, and 100 on the progress
    bar means it has nothing left to put and [has_put] holds. *)
Definition one_thread (has_put : Prop) (st : gui) : Prop :=
  exists todo,
    threads st = [todo]
    /\ quiet_after_100 todo = true
    /\ (progress_bar st = 100%Z -> puts todo = [] /\ has_put)
    /\ (In (SetProgress 100) todo -> has_put).

(** The display holds the two results with a blank line between them, in
    either order. *)
Definition separated_by_blank_line (display r1 r2 : string) : Prop :=
  display = (r1 ++ nl ++ nl ++ r2)%string
  \/ display = (r2 ++ nl ++ nl ++ r1)%string.

(** Both tasks run to their end one after the other, then the timer fires
    twice. *)
Definition two_quick_submissions : list event :=
  [Submit (answering [34 # 100; 81 # 100]) "phishing email";
   Submit (answering [9 # 10; 1 # 8]) "macro in a document"]
    ++ repeat (WorkerStep 0) 11 ++ repeat (WorkerStep 1) 11 ++ [Tick; Tick].

(** ** Layout of the result text *)

(** The four lines of the block of one match. *)
Definition block_lines (m : scored_match) : list string :=
  [ "ID: " ++ Detail.id (detail m);
    "Name: " ++ Detail.name (detail m);
    "Tactic: " ++ Detail.tactic (detail m);
    "Similarity: " ++ format_4f (similarity m) ]%string.

(** The lines of several blocks, with one empty line between two
    consecutive blocks. *)
Fixpoint blank_line_separated (blocks : list (list string)) : list string :=
  match blocks with
  | [] => []
  | [b] => b
  | b :: rest => b ++ "" :: blank_line_separated rest
  end.

(** The layout in the words of the specification: every line ends the
    previous one with a single newline. *)
Definition spec_result_text (top : list scored_match) : string :=
  join nl (blank_line_separated (map block_lines top)).

(** The number a string of decimal digits denotes, after [acc]. *)
Fixpoint parse_digits (acc : Z) (s : string) : Z :=
  match s with
  | EmptyString => acc
  | String c s' =>
      parse_digits (10 * acc + (Z.of_nat (nat_of_ascii c) - 48)) s'
  end.

(** [c] is one of the characters 0 to 9. *)
Definition is_digit (c : ascii) : bool :=
  ((48 <=? nat_of_ascii c) && (nat_of_ascii c <=? 57))%nat.

Fixpoint all_digits (s : string) : bool :=
  match s with
  | EmptyString => true
  | String c s' => is_digit c && all_digits s'
  end.

(** A decimal numeral: digits, at least one, and no leading zero except
    for the numeral 0 itself. *)
Definition canonical_numeral (s : string) : Prop :=
  all_digits s = true
  /\ match s with
     | EmptyString => False
     | String _ EmptyString => True
     | String c _ => c <> "0"%char
     end.

(** [r] is the integer nearest to [q], and the even one when two integers
    are equally near. *)
Definition nearest_even (q : Q) (r : Z) : Prop :=
  (- (1 # 2) <= q - inject_Z r <= 1 # 2)%Q
  /\ ((q - inject_Z r == 1 # 2)%Q \/ (q - inject_Z r == - (1 # 2))%Q ->
      Z.even r = true).

(** The words of the specification, "rendered as a fixed-point number with
    4 decimal places": [text] is a minus sign when [x] has its sign bit
    set, an integer numeral, a point and exactly four digits, and the
    digits denote the magnitude of [x] rounded to the nearest multiple of
    0.0001. *)
Definition fixed_4_decimals (x : pyfloat) (text : string) : Prop :=
  exists whole part r,
    text = ((if signbit x then "-" else "") ++ whole ++ "." ++ part)%string
    /\ canonical_numeral whole
    /\ all_digits part = true
    /\ String.length part = 4%nat
    /\ nearest_even (number x * 10000) r
    /\ (parse_digits 0 whole * 10000 + parse_digits 0 part = Z.abs r)%Z.

(** * The rest of the program *)

(** ** Dependency bootstrap (lines 8-30) *)

Module Setup.

(** What a [subprocess] call or an [import] can raise: the exception the
    handler of line 22 catches, or any other. *)
Inductive raised :=
| CalledProcessError (e : string)
| OtherException (e : string).

(** What the function does that is visible outside it, in order. *)
Inductive action :=
| PipFreeze                        (* check_output([..., 'pip', 'freeze']) *)
| PrintLine (line : string)        (* print(...) *)
| PipInstall (package : string)    (* check_call([..., 'install', package, '--user']) *)
| ImportModule (module : string).  (* from module import ... / import module *)

(** How a call of the function ends. *)
Inductive outcome :=
| Returned
| Exited (code : Z)                (* sys.exit(code) *)
| Raised (e : string).

(** The answers of pip and of the import system. [pip_freeze] is the output
    of the command after [.decode('utf-8')]. *)
Record system := {
  pip_freeze : raised + string;
  pip_install : string -> raised + unit;
  import_module : string -> raised + unit
}.

(** [str.lower] on the code points below 256. *)
Definition lower_char (c : ascii) : ascii :=
  let n := nat_of_ascii c in
  if ((65 <=? n) && (n <=? 90) || (192 <=? n) && (n <=? 214)
      || (216 <=? n) && (n <=? 222))%nat
  then ascii_of_nat (n + 32)
  else c.

Fixpoint lower (s : string) : string :=
  match s with
  | EmptyString => EmptyString
  | String c s' => String (lower_char c) (lower s')
  end.

(** [needle in hay] on strings. *)
Fixpoint contains (needle hay : string) : bool :=
  String.prefix needle hay
  || match hay with
     | EmptyString => false
     | String _ hay' => contains needle hay'
     end.

Definition required_packages : list string :=
  ["sentence-transformers"; "attackcti"; "numpy"; "pydantic"].

(** Line 16. *)
Definition missing_packages (installed_packages : string) : list string :=
  filter (fun pkg => negb (contains (lower pkg) installed_packages))
         required_packages.

Definition not_found (package : string) : action :=
  PrintLine (package ++ " not found. Installing for user...").

(** Lines 19-21: the loop stops at the first call that raises. *)
Fixpoint install_each (S : system) (packages : list string)
  : list action * (raised + unit) :=
  match packages with
  | [] => ([], inr tt)
  | package :: rest =>
      match pip_install S package with
      | inl e => ([not_found package; PipInstall package], inl e)
      | inr _ =>
          let (t, r) := install_each S rest in
          (not_found package :: PipInstall package :: t, r)
      end
  end.

(** Lines 14-21, the body of the [try]. *)
Definition check_and_install (S : system) : list action * (raised + unit) :=
  match pip_freeze S with
  | inl e => ([PipFreeze], inl e)
  | inr output =>
      let installed_packages := lower output in
      let (t, r) := install_each S (missing_packages installed_packages) in
      (PipFreeze :: t, r)
  end.

(** Lines 28-30. *)
Definition imported_modules : list string :=
  ["sentence_transformers"; "attackcti"; "numpy"].

Fixpoint import_each (S : system) (modules : list string)
  : list action * outcome :=
  match modules with
  | [] => ([], Returned)
  | module :: rest =>
      match import_module S module with
      | inl (CalledProcessError e) => ([ImportModule module], Raised e)
      | inl (OtherException e) => ([ImportModule module], Raised e)
      | inr _ =>
          let (t, r) := import_each S rest in (ImportModule module :: t, r)
      end
  end.

Definition failed_to_install (e : string) : action :=
  PrintLine ("Failed to install required packages: " ++ e).

(** Lines 8-30. *)
Definition install_and_import_packages (S : system)
  : list action * outcome :=
  match check_and_install S with
  | (t, inl (CalledProcessError e)) => (t ++ [failed_to_install e], Exited 1)
  | (t, inl (OtherException e)) => (t, Raised e)
  | (t, inr _) =>
      let (t', r) := import_each S imported_modules in (t ++ t', r)
  end.

(** The packages pip was asked to install, in order. *)
Fixpoint installs (t : list action) : list string :=
  match t with
  | [] => []
  | PipInstall package :: t' => package :: installs t'
  | _ :: t' => installs t'
  end.

(** The modules imported, in order. *)
Fixpoint imports (t : list action) : list string :=
  match t with
  | [] => []
  | ImportModule module :: t' => module :: imports t'
  | _ :: t' => imports t'
  end.

(** [needle] occurs in [hay]. *)
Definition occurs_in (needle hay : string) : Prop :=
  exists before after, hay = (before ++ needle ++ after)%string.

(** pip and the imports always succeed; [output] is what [pip freeze]
    prints. *)
Definition healthy (output : string) : system :=
  {| pip_freeze := inr output;
     pip_install := fun _ => inr tt;
     import_module := fun _ => inr tt |}.

(** As [healthy], but installing [package] fails with a non-zero exit
    status. *)
Definition failing_on (package output : string) : system :=
  {| pip_freeze := inr output;
     pip_install :=
       fun p => if String.eqb p package
                then inl (CalledProcessError "non-zero exit status 1")
                else inr tt;
     import_module := fun _ => inr tt |}.

End Setup.

(** ** Vocabulary for the rest *)

(** The messages of the error dialogs a worker shows, in order. *)
Fixpoint error_messages (t : list action) : list string :=
  match t with
  | [] => []
  | ShowError _ message :: t' => message :: error_messages t'
  | _ :: t' => error_messages t'
  end.

(** A progress callback that raises [e] when called with [milestone] and
    is [update_progress] otherwise. *)
Definition raising_at (milestone : Z) (e : exn) (value : Z) : W unit :=
  if (value =? milestone)%Z then ([], inl e) else update_progress value.

(** The submissions of a schedule that start a thread. *)
Fixpoint started (schedule : list event) : nat :=
  match schedule with
  | [] => 0
  | Submit _ sentence :: rest =>
      (if all_space sentence then 0 else 1) + started rest
  | _ :: rest => started rest
  end.

(** The values the progress bar is ever given. *)
Definition milestone (value : Z) : Prop :=
  value = 0%Z \/ value = 20%Z \/ value = 50%Z \/ value = 100%Z.

(** The outputs of [pip freeze] used in the examples. *)
Definition freeze_with_lookalikes : string :=
  "attackcti==0.4.4" ++ nl ++ "numpy-financial==1.0.0" ++ nl
  ++ "pydantic_core==2.18.2" ++ nl ++ "Sentence-Transformers==2.7.0".

(** Encoding the descriptions raises. *)
Definition batch_down : libs :=
  {| model_encode := fun _ => inr [1; 0];
     lift_get_techniques := inr [user_execution; phishing];
     model_encode_batch := fun _ => inl "out of memory";
     pytorch_cos_sim := fun _ _ => inr [map Float [34 # 100; 81 # 100]] |}.

(** * Properties *)

(** ** Lists *)

Lemma In_firstn {A : Type} (x : A) (k : nat) :
  forall l, In x (firstn k l) -> In x l.
Proof.
  induction k as [|k IH]; intros [|y l]; simpl; try tauto.
  intros [H|H]; [now left|right; now apply IH].
Qed.

Lemma StronglySorted_firstn {A : Type} (R : A -> A -> Prop) (k : nat) :
  forall l, StronglySorted R l -> StronglySorted R (firstn k l).
Proof.
  induction k as [|k IH]; intros l Hl; simpl.
  - constructor.
  - destruct l as [|x l]; [constructor|].
    apply StronglySorted_inv in Hl. destruct Hl as [Hl Hx].
    constructor.
    + now apply IH.
    + rewrite Forall_forall in *. intros y Hy.
      apply Hx. eapply In_firstn; eauto.
Qed.

Lemma StronglySorted_weaken {A : Type} (R R' : A -> A -> Prop) (P : A -> Prop) :
  (forall x y, P x -> P y -> R x y -> R' x y) ->
  forall l, Forall P l -> StronglySorted R l -> StronglySorted R' l.
Proof.
  intros HR l HP Hl. induction Hl as [|x l Hl IH Hx].
  - constructor.
  - inversion HP as [|? ? Px Pl]; subst. constructor.
    + now apply IH.
    + rewrite Forall_forall in *. intros y Hy. apply HR; auto.
Qed.

Lemma StronglySorted_Forall2 {A B : Type}
      (R : A -> A -> Prop) (R' : B -> B -> Prop) (P : A -> B -> Prop) :
  (forall x y x' y', R x y -> P x x' -> P y y' -> R' x' y') ->
  forall l l', Forall2 P l l' -> StronglySorted R l -> StronglySorted R' l'.
Proof.
  intros HR l l' H2. induction H2 as [|x x' l l' Hx H2 IH]; intros Hl.
  - constructor.
  - apply StronglySorted_inv in Hl. destruct Hl as [Hl Hall].
    constructor; [now apply IH|].
    clear IH Hl. induction H2 as [|y y' l l' Hy H2 IH]; constructor.
    + inversion Hall; subst. eapply HR; eauto.
    + apply IH. now inversion Hall.
Qed.

(** ** Ranking *)

Lemma number_neg (x : pyfloat) : (number (neg x) == - number x)%Q.
Proof.
  destruct x as [q|]; simpl; [|reflexivity].
  destruct (Qeq_bool q 0) eqn:E; simpl; [|reflexivity].
  apply Qeq_bool_eq in E. now rewrite E.
Qed.

Lemma key_score (similarities0 : list pyfloat) :
  forall i, (item (keys similarities0) i == - score similarities0 i)%Q.
Proof.
  unfold keys, score, item.
  induction similarities0 as [|x l IH]; intros [|i]; simpl;
    try reflexivity; [apply number_neg|apply IH].
Qed.

Lemma keys_length (similarities0 : list pyfloat) :
  length (keys similarities0) = length similarities0.
Proof. unfold keys. now rewrite !length_map. Qed.

Lemma StronglySorted_app_cross {A : Type} (R : A -> A -> Prop)
      (l1 l2 : list A) :
  StronglySorted R (l1 ++ l2) ->
  forall x y, In x l1 -> In y l2 -> R x y.
Proof.
  induction l1 as [|a l1 IH]; intros Hs x y Hx Hy; [destruct Hx|].
  simpl in Hs. apply StronglySorted_inv in Hs. destruct Hs as [Hs Ha].
  destruct Hx as [<-|Hx].
  - rewrite Forall_forall in Ha. apply Ha. apply in_or_app. now right.
  - now apply IH.
Qed.

Lemma map_nth_seq {A : Type} (d : A) (l : list A) :
  map (fun i => nth i l d) (seq 0 (length l)) = l.
Proof.
  induction l as [|x l IH]; [reflexivity|].
  simpl. f_equal. rewrite <- seq_shift, map_map. exact IH.
Qed.

Section RankingFacts.
Context {NP : ArgSort} {OK : ArgSortLaws NP}.

Lemma argsort_length (a : list Q) : length (argsort a) = length a.
Proof.
  rewrite (Permutation_length (argsort_perm a)). apply length_seq.
Qed.

Lemma argsort_in_range (a : list Q) (i : nat) :
  In i (argsort a) -> (i < length a)%nat.
Proof.
  intros Hi. apply (Permutation_in _ (argsort_perm a)) in Hi.
  apply in_seq in Hi. lia.
Qed.

Lemma argsort_NoDup (a : list Q) : NoDup (argsort a).
Proof.
  eapply Permutation_NoDup.
  - apply Permutation_sym, argsort_perm.
  - apply seq_NoDup.
Qed.

Lemma top_matches_indices_length (similarities0 : list pyfloat) :
  length (top_matches_indices similarities0)
  = Nat.min 3 (length similarities0).
Proof.
  unfold top_matches_indices.
  now rewrite length_firstn, argsort_length, keys_length.
Qed.

Lemma top_matches_indices_in_range (similarities0 : list pyfloat) (i : nat) :
  In i (top_matches_indices similarities0) ->
  (i < length similarities0)%nat.
Proof.
  unfold top_matches_indices. intros Hi.
  apply In_firstn in Hi. apply argsort_in_range in Hi.
  now rewrite keys_length in Hi.
Qed.

Lemma keys_le_scores (similarities0 : list pyfloat) (i j : nat) :
  (item (keys similarities0) i <= item (keys similarities0) j)%Q ->
  (score similarities0 j <= score similarities0 i)%Q.
Proof.
  rewrite !key_score. intros Hle.
  apply Qopp_le_compat in Hle. now rewrite !Qopp_involutive in Hle.
Qed.

Lemma top_matches_indices_sorted (similarities0 : list pyfloat) :
  StronglySorted
    (fun i j => (score similarities0 j <= score similarities0 i)%Q)
    (top_matches_indices similarities0).
Proof.
  unfold top_matches_indices. apply StronglySorted_firstn.
  apply StronglySorted_weaken
    with (R := fun i j => (item (keys similarities0) i
                           <= item (keys similarities0) j)%Q)
         (P := fun _ => True);
    [| apply Forall_forall; auto | apply argsort_sorted].
  intros i j _ _. apply keys_le_scores.
Qed.

Lemma top_matches_indices_NoDup (similarities0 : list pyfloat) :
  NoDup (top_matches_indices similarities0).
Proof.
  unfold top_matches_indices.
  pose proof (argsort_NoDup (keys similarities0)) as Hnd.
  rewrite <- (firstn_skipn 3 (argsort (keys similarities0))) in Hnd.
  exact (NoDup_app_remove_r _ _ Hnd).
Qed.

(** A candidate that is left out scores no more than one that is taken. *)
Lemma top_matches_indices_best (similarities0 : list pyfloat) (i j : nat) :
  In i (top_matches_indices similarities0) ->
  (j < length similarities0)%nat ->
  ~ In j (top_matches_indices similarities0) ->
  (score similarities0 j <= score similarities0 i)%Q.
Proof.
  unfold top_matches_indices. intros Hi Hj Hnj.
  assert (Hin : In j (argsort (keys similarities0))).
  { apply (Permutation_in _ (Permutation_sym
                               (argsort_perm (keys similarities0)))).
    apply in_seq. rewrite keys_length. lia. }
  rewrite <- (firstn_skipn 3 (argsort (keys similarities0))) in Hin.
  apply in_app_or in Hin. destruct Hin as [Hin|Hin]; [contradiction|].
  pose proof (argsort_sorted (keys similarities0)) as Hs.
  rewrite <- (firstn_skipn 3 (argsort (keys similarities0))) in Hs.
  apply keys_le_scores.
  exact (StronglySorted_app_cross _ _ _ Hs i j Hi Hin).
Qed.

(** With at most three candidates every index is taken. *)
Lemma top_matches_indices_all (similarities0 : list pyfloat) :
  (length similarities0 <= 3)%nat ->
  Permutation (top_matches_indices similarities0)
              (seq 0 (length similarities0)).
Proof.
  intros Hn. unfold top_matches_indices. rewrite firstn_all2.
  - rewrite <- (keys_length similarities0). apply argsort_perm.
  - rewrite argsort_length, keys_length. lia.
Qed.

Lemma matches_at_ok (technique_details : list Detail.t)
      (similarities0 : list pyfloat) :
  forall indices,
    (forall i, In i indices ->
               (i < length technique_details)%nat
               /\ (i < length similarities0)%nat) ->
    exists ms,
      matches_at technique_details similarities0 indices = inr ms
      /\ Forall2 (match_at technique_details similarities0) indices ms.
Proof.
  induction indices as [|i indices IH]; intros Hr; simpl.
  - exists []. split; [reflexivity|constructor].
  - destruct (Hr i (or_introl eq_refl)) as [Hd Hs].
    destruct IH as [ms [E F]]; [intros; apply Hr; now right|].
    unfold getitem.
    destruct (nth_error technique_details i) as [d|] eqn:Ed;
      [|apply nth_error_None in Ed; lia].
    destruct (nth_error similarities0 i) as [s|] eqn:Es;
      [|apply nth_error_None in Es; lia].
    rewrite E. eexists. split; [reflexivity|].
    constructor; [split; assumption|exact F].
Qed.

Lemma match_at_item technique_details similarities0 index m :
  match_at technique_details similarities0 index m ->
  score similarities0 index = number (similarity m).
Proof.
  intros [_ Hs]. unfold score, item. apply nth_error_nth.
  now apply map_nth_error.
Qed.

Lemma match_at_details (technique_details : list Detail.t)
      (similarities0 : list pyfloat) (d : Detail.t) :
  forall indices ms,
    Forall2 (match_at technique_details similarities0) indices ms ->
    map detail ms = map (fun i => nth i technique_details d) indices.
Proof.
  induction 1 as [|i m indices ms [Hd _] _ IH]; [reflexivity|].
  simpl. rewrite IH. f_equal. symmetry. now apply nth_error_nth.
Qed.

(** The details of the matches at a rearrangement of all indices are a
    rearrangement of the candidates. *)
Lemma matches_of_all_indices (technique_details : list Detail.t)
      (similarities0 : list pyfloat) (indices : list nat)
      (ms : list scored_match) :
  Forall2 (match_at technique_details similarities0) indices ms ->
  Permutation indices (seq 0 (length technique_details)) ->
  Permutation (map detail ms) technique_details.
Proof.
  intros F P.
  assert (D : technique_details = [] \/ exists d0 : Detail.t, True)
    by (destruct technique_details as [|d0 ?]; [now left|right; now exists d0]).
  destruct D as [->|[d0 _]].
  - simpl in P. apply Permutation_sym, Permutation_nil in P. subst indices.
    inversion F. constructor.
  - rewrite (match_at_details _ _ d0 _ _ F).
    apply Permutation_trans
      with (map (fun i => nth i technique_details d0)
                (seq 0 (length technique_details)));
      [|rewrite map_nth_seq; reflexivity].
    now apply Permutation_map.
Qed.
End RankingFacts.

(** ** Two index sorts that meet the contract of [np.argsort] *)

Section InsertionArgsort.
Variable a : list Q.
Variable before : nat -> nat -> bool.
Hypothesis before_true :
  forall i j, before i j = true -> (item a i <= item a j)%Q.
Hypothesis before_false :
  forall i j, before i j = false -> (item a j <= item a i)%Q.

Let key_le (i j : nat) : Prop := (item a i <= item a j)%Q.

Lemma insert_perm (i : nat) :
  forall l, Permutation (insert before i l) (i :: l).
Proof.
  induction l as [|j l IH]; simpl; [reflexivity|].
  destruct (before i j); [reflexivity|].
  rewrite IH. apply perm_swap.
Qed.

Lemma insert_sorted (i : nat) :
  forall l, StronglySorted key_le l ->
            StronglySorted key_le (insert before i l).
Proof.
  induction l as [|j l IH]; intros Hl; simpl.
  - repeat constructor.
  - apply StronglySorted_inv in Hl. destruct Hl as [Hl Hj].
    destruct (before i j) eqn:E.
    + constructor; [constructor; assumption|].
      constructor; [now apply before_true|].
      rewrite Forall_forall in *. intros y Hy.
      unfold key_le. eapply Qle_trans; [apply before_true, E|].
      now apply Hj.
    + constructor; [now apply IH|].
      rewrite Forall_forall in *. intros y Hy.
      apply (Permutation_in _ (insert_perm i l)) in Hy.
      destruct Hy as [<-|Hy]; [now apply before_false|now apply Hj].
Qed.

Lemma fold_insert_perm :
  forall l, Permutation (fold_right (insert before) [] l) l.
Proof.
  induction l as [|i l IH]; simpl; [reflexivity|].
  rewrite insert_perm. now constructor.
Qed.

Lemma fold_insert_sorted :
  forall l, StronglySorted key_le (fold_right (insert before) [] l).
Proof.
  induction l as [|i l IH]; simpl; [constructor|].
  now apply insert_sorted.
Qed.
End InsertionArgsort.

Lemma before_le_true a i j :
  before_le a i j = true -> (item a i <= item a j)%Q.
Proof. unfold before_le. apply Qle_bool_imp_le. Qed.

Lemma before_le_false a i j :
  before_le a i j = false -> (item a j < item a i)%Q.
Proof.
  unfold before_le. intros E. apply Qnot_le_lt. intros Hle.
  apply Qle_bool_iff in Hle. congruence.
Qed.

Lemma before_lt_true a i j :
  before_lt a i j = true -> (item a i <= item a j)%Q.
Proof.
  unfold before_lt. intros E. apply negb_true_iff in E.
  apply Qlt_le_weak, Qnot_le_lt. intros Hle.
  apply Qle_bool_iff in Hle. congruence.
Qed.

Lemma before_lt_false a i j :
  before_lt a i j = false -> (item a j <= item a i)%Q.
Proof.
  unfold before_lt. intros E. apply negb_false_iff in E.
  now apply Qle_bool_imp_le.
Qed.

Lemma stable_argsort_laws : ArgSortLaws stable_argsort.
Proof.
  split; intros a; simpl.
  - apply fold_insert_perm.
  - apply fold_insert_sorted.
    + apply before_le_true.
    + intros i j E. apply Qlt_le_weak. now apply before_le_false.
Qed.

Lemma reversing_argsort_laws : ArgSortLaws reversing_argsort.
Proof.
  split; intros a; simpl.
  - apply fold_insert_perm.
  - apply fold_insert_sorted.
    + apply before_lt_true.
    + apply before_lt_false.
Qed.

Lemma insert_stable (a : list Q) (i : nat) :
  let tie_order (x y : nat) := (item a x == item a y)%Q -> (x < y)%nat in
  forall l, Forall (fun y => (i < y)%nat) l ->
            StronglySorted tie_order l ->
            StronglySorted tie_order (insert (before_le a) i l).
Proof.
  intros tie_order. induction l as [|j l IH]; intros Hlt Hl; simpl.
  - repeat constructor.
  - apply StronglySorted_inv in Hl. destruct Hl as [Hl Hj].
    inversion Hlt as [|? ? Hij Hlt']; subst.
    destruct (before_le a i j) eqn:E.
    + constructor; [constructor; assumption|].
      rewrite Forall_forall in *. intros y Hy _. now apply Hlt.
    + constructor; [now apply IH|].
      rewrite Forall_forall in *. intros y Hy.
      apply (Permutation_in _ (insert_perm (before_le a) i l)) in Hy.
      destruct Hy as [<-|Hy]; [|now apply Hj].
      intros Heq. apply before_le_false in E.
      rewrite Heq in E. exfalso. eapply Qlt_irrefl; eauto.
Qed.

Lemma stable_argsort_Stable : Stable stable_argsort.
Proof.
  intros a. simpl. unfold insertion_argsort.
  assert (G : forall len start,
             StronglySorted
               (fun i j => (item a i == item a j)%Q -> (i < j)%nat)
               (fold_right (insert (before_le a)) [] (seq start len))).
  { induction len as [|len IH]; intros start; simpl; [constructor|].
    apply insert_stable; [|apply IH].
    rewrite Forall_forall. intros y Hy.
    apply (Permutation_in _ (fold_insert_perm (before_le a) _)) in Hy.
    apply in_seq in Hy. lia. }
  apply G.
Qed.

(** ** Sorted rearrangements carry the same keys *)

Lemma StronglySorted_replace {A : Type} (R : A -> A -> Prop) (x y : A) :
  (forall e, R e x -> R e y) ->
  (forall e, R x e -> R y e) ->
  forall s1 s2,
    StronglySorted R (s1 ++ x :: s2) -> StronglySorted R (s1 ++ y :: s2).
Proof.
  intros Hl Hr s1 s2. induction s1 as [|e s1 IH]; simpl; intros Hs;
    apply StronglySorted_inv in Hs; destruct Hs as [Hs Hall].
  - constructor; [exact Hs|].
    rewrite Forall_forall in *. intros z Hz. apply Hr. now apply Hall.
  - constructor; [now apply IH|].
    rewrite Forall_forall in *. intros z Hz.
    apply in_app_or in Hz. destruct Hz as [Hz|[<-|Hz]].
    + apply Hall. apply in_or_app. now left.
    + apply Hl. apply Hall. apply in_or_app. right. now left.
    + apply Hall. apply in_or_app. right. now right.
Qed.

Lemma Forall2_firstn_both {A B : Type} (P : A -> B -> Prop) (k : nat) :
  forall l1 l2, Forall2 P l1 l2 -> Forall2 P (firstn k l1) (firstn k l2).
Proof.
  induction k as [|k IH]; intros l1 l2 H; [constructor|].
  destruct H; simpl; constructor; auto.
Qed.

Section SameKeys.
Variable key : nat -> Q.

Let key_le (i j : nat) : Prop := (key i <= key j)%Q.
Let key_eq (i j : nat) : Prop := (key i == key j)%Q.

Lemma key_eq_through (s1 s2 : list nat) (x y : nat) :
  key_eq y x -> Forall2 key_eq (s1 ++ y :: s2) (s1 ++ x :: s2).
Proof.
  intros Hxy. induction s1 as [|e s1 IH]; simpl.
  - constructor; [exact Hxy|].
    induction s2; constructor; [unfold key_eq; reflexivity|assumption].
  - constructor; [unfold key_eq; reflexivity|exact IH].
Qed.

Lemma Forall2_key_eq_trans (l1 l2 l3 : list nat) :
  Forall2 key_eq l1 l2 -> Forall2 key_eq l2 l3 -> Forall2 key_eq l1 l3.
Proof.
  intros H12. revert l3. induction H12 as [|a b l1 l2 Hab _ IH];
    intros l3 H23; inversion H23; subst; constructor.
  - unfold key_eq in *. etransitivity; eauto.
  - now apply IH.
Qed.

(** Two sorted rearrangements of the same indices have equal keys at
    every position. *)
Lemma sorted_perm_same_keys :
  forall l1 l2,
    Permutation l1 l2 ->
    StronglySorted key_le l1 -> StronglySorted key_le l2 ->
    Forall2 key_eq l1 l2.
Proof.
  induction l1 as [|x l1 IH]; intros l2 P S1 S2.
  - apply Permutation_nil in P. subst. constructor.
  - destruct l2 as [|y l2];
      [apply Permutation_sym, Permutation_nil in P; discriminate|].
    pose proof (StronglySorted_inv S1) as [S1' H1].
    pose proof (StronglySorted_inv S2) as [S2' H2].
    rewrite Forall_forall in H1, H2.
    assert (Hxy : key_le x y).
    { assert (Hy : In y (x :: l1))
        by (apply (Permutation_in _ (Permutation_sym P)); now left).
      destruct Hy as [<-|Hy]; [apply Qle_refl|now apply H1]. }
    assert (Hyx : key_le y x).
    { assert (Hx : In x (y :: l2))
        by (apply (Permutation_in _ P); now left).
      destruct Hx as [<-|Hx]; [apply Qle_refl|now apply H2]. }
    assert (E : key_eq x y) by (now apply Qle_antisym).
    destruct (Nat.eq_dec x y) as [<-|Hne].
    + constructor; [exact E|]. apply IH; auto.
      now apply Permutation_cons_inv in P.
    + assert (Hx : In x l2).
      { assert (Hx : In x (y :: l2))
          by (apply (Permutation_in _ P); now left).
        destruct Hx as [Hx|Hx]; [congruence|exact Hx]. }
      apply in_split in Hx. destruct Hx as (s1 & s2 & ->).
      constructor; [exact E|].
      apply Forall2_key_eq_trans with (s1 ++ y :: s2).
      * apply IH; auto.
        -- apply Permutation_cons_inv with (a := x).
           apply (Permutation_trans P).
           apply Permutation_trans with (y :: x :: s1 ++ s2);
             [constructor; apply Permutation_sym, Permutation_middle|].
           apply Permutation_trans with (x :: y :: s1 ++ s2);
             [apply perm_swap|].
           constructor. apply Permutation_middle.
        -- apply StronglySorted_replace with (x := x); auto.
           ++ intros e He. unfold key_le in *.
              eapply Qle_trans; [exact He|exact Hxy].
           ++ intros e He. unfold key_le in *.
              eapply Qle_trans; [exact Hyx|exact He].
      * apply key_eq_through. unfold key_eq in *. now symmetry.
Qed.
End SameKeys.

(** C1: for n candidates (and the n similarities computed for them) the
    ranking step raises nothing and returns exactly min(3, n) matches,
    ordered by similarity non-increasing; each match is the candidate and
    the similarity at one index, no index is taken twice, no candidate
    that is left out has a higher similarity than one that is returned,
    and with at most three candidates all of them are returned; with no
    candidate the result is the empty list. *)
Theorem top_matches_min3_sorted (NP : ArgSort) (OK : ArgSortLaws NP)
        (technique_details : list Detail.t)
        (similarities0 : list pyfloat) :
  length similarities0 = length technique_details ->
  exists ms,
    top_matches technique_details similarities0 = inr ms
    /\ length ms = Nat.min 3 (length technique_details)
    /\ non_increasing ms
    /\ Forall2 (match_at technique_details similarities0)
               (top_matches_indices similarities0) ms
    /\ NoDup (top_matches_indices similarities0)
    /\ (forall i j,
           In i (top_matches_indices similarities0) ->
           (j < length technique_details)%nat ->
           ~ In j (top_matches_indices similarities0) ->
           (score similarities0 j <= score similarities0 i)%Q)
    /\ ((length technique_details <= 3)%nat ->
        Permutation (map detail ms) technique_details)
    /\ (technique_details = [] -> ms = []).
Proof.
  intros Hlen. unfold top_matches.
  destruct (matches_at_ok technique_details similarities0
                          (top_matches_indices similarities0))
    as [ms [E F]].
  { intros i Hi. apply top_matches_indices_in_range in Hi. lia. }
  exists ms. split; [exact E|].
  assert (Hn : length ms = Nat.min 3 (length technique_details)).
  { rewrite <- (Forall2_length F), top_matches_indices_length. now rewrite Hlen. }
  split; [exact Hn|]. split; [|split; [exact F|]].
  - eapply StronglySorted_Forall2; [| exact F | apply top_matches_indices_sorted].
    intros i j m m' Hle Hi Hj. simpl in Hle.
    now rewrite (match_at_item _ _ _ _ Hi), (match_at_item _ _ _ _ Hj) in Hle.
  - split; [apply top_matches_indices_NoDup|]. split; [|split].
    + intros i j Hi Hj Hnj. apply top_matches_indices_best; auto. lia.
    + intros H3. apply (matches_of_all_indices _ _ _ _ F).
      rewrite <- Hlen. apply top_matches_indices_all. lia.
    + intros ->. simpl in Hn. now destruct ms.
Qed.

Lemma top_matches_min3_sorted_witness :
  exists ms,
    @top_matches stable_argsort [T1204; T1566]
                 (map Float [34 # 100; 81 # 100]) = inr ms
    /\ length ms = Nat.min 3 (length [T1204; T1566])
    /\ non_increasing ms
    /\ Forall2 (match_at [T1204; T1566] (map Float [34 # 100; 81 # 100]))
               (@top_matches_indices stable_argsort
                                     (map Float [34 # 100; 81 # 100])) ms
    /\ NoDup (@top_matches_indices stable_argsort
                                   (map Float [34 # 100; 81 # 100]))
    /\ (forall i j,
           In i (@top_matches_indices stable_argsort
                                      (map Float [34 # 100; 81 # 100])) ->
           (j < length [T1204; T1566])%nat ->
           ~ In j (@top_matches_indices stable_argsort
                                        (map Float [34 # 100; 81 # 100])) ->
           (score (map Float [34 # 100; 81 # 100]) j
            <= score (map Float [34 # 100; 81 # 100]) i)%Q)
    /\ ((length [T1204; T1566] <= 3)%nat ->
        Permutation (map detail ms) [T1204; T1566])
    /\ ([T1204; T1566] = [] -> ms = []).
Proof.
  apply (top_matches_min3_sorted stable_argsort stable_argsort_laws
           [T1204; T1566] (map Float [34 # 100; 81 # 100])).
  reflexivity.
Defined.

(** The example of the specification: two candidates scoring 0.34 and 0.81
    are both returned, the better one first. *)
Example top_matches_two_candidates :
  @top_matches stable_argsort [T1204; T1566] (map Float [34 # 100; 81 # 100])
  = inr [ {| detail := T1566; similarity := Float (81 # 100) |};
          {| detail := T1204; similarity := Float (34 # 100) |} ].
Proof. reflexivity. Qed.

Example top_matches_four_candidates :
  @top_matches_indices stable_argsort
                       (map Float [1 # 4; 3 # 4; 1 # 2; 3 # 4])
  = [1; 3; 2]%nat.
Proof. reflexivity. Qed.

(** The selection described by [ties_taken_in_input_order] is the one a
    stable index sort makes. *)
Lemma stable_sort_takes_ties_in_input_order (NP : ArgSort)
      (OK : ArgSortLaws NP) (similarities0 : list pyfloat) :
  Stable NP ->
  ties_taken_in_input_order similarities0
                            (top_matches_indices similarities0).
Proof.
  intros St.
  assert (Sc : StronglySorted
                 (fun i j => (score similarities0 i == score similarities0 j)%Q
                             -> (i < j)%nat)
                 (argsort (keys similarities0))).
  { apply StronglySorted_weaken
      with (R := fun i j => (item (keys similarities0) i
                             == item (keys similarities0) j)%Q -> (i < j)%nat)
           (P := fun _ => True);
      [| apply Forall_forall; auto | apply St].
    intros i j _ _ H E. apply H. rewrite !key_score. now rewrite E. }
  split.
  - unfold ties_keep_input_order, top_matches_indices.
    apply StronglySorted_firstn. exact Sc.
  - intros i j [Hij Hj] E Hin. unfold top_matches_indices in *.
    assert (Hi : In i (argsort (keys similarities0))).
    { apply (Permutation_in _ (Permutation_sym
                                 (argsort_perm (keys similarities0)))).
      apply in_seq. rewrite keys_length. lia. }
    rewrite <- (firstn_skipn 3 (argsort (keys similarities0))) in Hi.
    apply in_app_or in Hi. destruct Hi as [Hi|Hi]; [exact Hi|exfalso].
    rewrite <- (firstn_skipn 3 (argsort (keys similarities0))) in Sc.
    pose proof (StronglySorted_app_cross _ _ _ Sc j i Hin Hi) as C.
    simpl in C. symmetry in E. apply C in E. lia.
Qed.

(** C2, as stated, fails.  The four candidates score 0.25, 0.25, 0.75 and
    0.5.  An index sort within the contract of [np.argsort] orders them
    2, 3, 1, 0, as the default kind of [np.argsort] does on these four
    keys, so the top matches are the candidates 2, 3 and 1: candidate 1 is
    returned and candidate 0, which has the same similarity and comes
    before it in the input, is left out, where a stable sort returns 2, 3
    and 0. *)
Lemma earlier_tie_left_out_counterexample :
  exists NP : ArgSort,
    ArgSortLaws NP
    /\ @argsort NP (keys (map Float [1 # 4; 1 # 4; 3 # 4; 1 # 2]))
       = [2; 3; 1; 0]%nat
    /\ @top_matches_indices NP (map Float [1 # 4; 1 # 4; 3 # 4; 1 # 2])
       = [2; 3; 1]%nat
    /\ @top_matches_indices stable_argsort
                            (map Float [1 # 4; 1 # 4; 3 # 4; 1 # 2])
       = [2; 3; 0]%nat
    /\ ~ ties_taken_in_input_order
           (map Float [1 # 4; 1 # 4; 3 # 4; 1 # 2])
           (@top_matches_indices NP (map Float [1 # 4; 1 # 4; 3 # 4; 1 # 2])).
Proof.
  exists reversing_argsort.
  split; [exact reversing_argsort_laws|].
  split; [reflexivity|]. split; [reflexivity|]. split; [reflexivity|].
  change (@top_matches_indices reversing_argsort
                               (map Float [1 # 4; 1 # 4; 3 # 4; 1 # 2]))
    with [2; 3; 1]%nat.
  intros [_ H].
  assert (C : In 0%nat [2; 3; 1]%nat).
  { apply (H 0%nat 1%nat).
    - simpl. lia.
    - reflexivity.
    - simpl. tauto. }
  simpl in C. destruct C as [C|[C|[C|[]]]]; discriminate.
Qed.

(** C2, amended: whatever order the index sort gives to ties, the top
    matches are taken at distinct indices, ordered by similarity
    non-increasing, no candidate that is left out has a higher similarity
    than one that is returned, and the similarities of the matches are the
    same for every index sort within the contract: only which of several
    tied candidates are returned, and in which order, depends on it. *)
Theorem tied_candidates_left_to_argsort (NP : ArgSort) (OK : ArgSortLaws NP)
        (similarities0 : list pyfloat) :
  NoDup (top_matches_indices similarities0)
  /\ StronglySorted
       (fun i j => (score similarities0 j <= score similarities0 i)%Q)
       (top_matches_indices similarities0)
  /\ (forall i j,
         In i (top_matches_indices similarities0) ->
         (j < length similarities0)%nat ->
         ~ In j (top_matches_indices similarities0) ->
         (score similarities0 j <= score similarities0 i)%Q)
  /\ (forall NP' : ArgSort,
         ArgSortLaws NP' ->
         Forall2 (fun i j => (score similarities0 i
                              == score similarities0 j)%Q)
                 (@top_matches_indices NP similarities0)
                 (@top_matches_indices NP' similarities0)).
Proof.
  split; [apply top_matches_indices_NoDup|].
  split; [apply top_matches_indices_sorted|].
  split; [intros i j; apply top_matches_indices_best|].
  intros NP' OK'. unfold top_matches_indices.
  apply Forall2_firstn_both.
  set (a := keys similarities0).
  assert (F : Forall2 (fun i j => (item a i == item a j)%Q)
                      (@argsort NP a) (@argsort NP' a)).
  { apply sorted_perm_same_keys.
    - rewrite (@argsort_perm NP OK a).
      apply Permutation_sym, (@argsort_perm NP' OK' a).
    - apply (@argsort_sorted NP OK a).
    - apply (@argsort_sorted NP' OK' a). }
  clear -F. induction F as [|i j l1 l2 Hij _ IH]; constructor; [|exact IH].
  unfold a in Hij. rewrite !key_score in Hij.
  apply Qopp_comp in Hij. now rewrite !Qopp_involutive in Hij.
Qed.

Lemma tied_candidates_left_to_argsort_witness :
  Forall2 (fun i j =>
             (score (map Float [1 # 4; 1 # 4; 3 # 4; 1 # 2]) i
              == score (map Float [1 # 4; 1 # 4; 3 # 4; 1 # 2]) j)%Q)
          (@top_matches_indices stable_argsort
                                (map Float [1 # 4; 1 # 4; 3 # 4; 1 # 2]))
          (@top_matches_indices reversing_argsort
                                (map Float [1 # 4; 1 # 4; 3 # 4; 1 # 2])).
Proof.
  apply (tied_candidates_left_to_argsort stable_argsort stable_argsort_laws
           (map Float [1 # 4; 1 # 4; 3 # 4; 1 # 2])).
  exact reversing_argsort_laws.
Defined.

(** ** Technique details *)

(** C6: the entry built for a raw technique has "No ID", "No Name" and
    "No Description" where the id, the name and the description are
    missing, and the empty string (the join of the empty list) where the
    tactic list is missing; fields that are present are taken over, the
    tactics joined with ", ". *)
Theorem technique_detail_placeholders (t : raw_technique) :
  (technique_id t = None -> Detail.id (technique_detail t) = "No ID")
  /\ (technique t = None -> Detail.name (technique_detail t) = "No Name")
  /\ (technique_description t = None ->
      Detail.description (technique_detail t) = "No Description")
  /\ (tactic t = None ->
      Detail.tactic (technique_detail t) = join ", " []
      /\ join ", " [] = "")
  /\ (forall v, technique_id t = Some v -> Detail.id (technique_detail t) = v)
  /\ (forall v, technique t = Some v -> Detail.name (technique_detail t) = v)
  /\ (forall v, technique_description t = Some v ->
                Detail.description (technique_detail t) = v)
  /\ (forall v, tactic t = Some v ->
                Detail.tactic (technique_detail t) = join ", " v).
Proof.
  unfold technique_detail; simpl.
  repeat split; intros; repeat match goal with H : _ = _ |- _ => rewrite H end;
    reflexivity.
Qed.

Lemma technique_detail_placeholders_witness :
  Detail.id (technique_detail bare_technique) = "No ID"
  /\ Detail.name (technique_detail bare_technique) = "No Name"
  /\ Detail.description (technique_detail bare_technique) = "No Description"
  /\ Detail.tactic (technique_detail bare_technique) = "".
Proof.
  pose proof (technique_detail_placeholders bare_technique)
    as (H1 & H2 & H3 & H4 & _).
  split; [exact (H1 eq_refl)|].
  split; [exact (H2 eq_refl)|].
  split; [exact (H3 eq_refl)|].
  destruct (H4 eq_refl) as [Ha Hb]. rewrite Ha. exact Hb.
Defined.

Example technique_detail_partial :
  technique_detail
    {| technique_id := Some "T1059"; technique := None;
       technique_description := Some "Abuse of interpreters.";
       tactic := Some ["execution"; "persistence"] |}
  = Detail.make "T1059" "No Name" "Abuse of interpreters."
                "execution, persistence".
Proof. reflexivity. Qed.

(** ** Blank input *)

Lemma lstrip_all_space (s : string) :
  all_space s = true -> lstrip s = "".
Proof.
  induction s as [|c s IH]; simpl; [reflexivity|].
  intros H. apply andb_true_iff in H. destruct H as [Hc Hs].
  rewrite Hc. now apply IH.
Qed.

Lemma lstrip_head (s : string) :
  lstrip s = "" \/ exists c r, lstrip s = String c r /\ isspace c = false.
Proof.
  induction s as [|c s IH]; simpl; [now left|].
  destruct (isspace c) eqn:E; [exact IH|].
  right. now exists c, s.
Qed.

Lemma lstrip_empty_all_space (s : string) :
  lstrip s = "" -> all_space s = true.
Proof.
  induction s as [|c s IH]; simpl; [reflexivity|].
  destruct (isspace c); [exact IH|discriminate].
Qed.

Lemma strip_empty_iff (s : string) :
  is_empty (strip s) = true <-> all_space s = true.
Proof.
  unfold strip. split.
  - intros H. apply lstrip_empty_all_space.
    destruct (lstrip_head s) as [E|(c & r & E & Hc)]; [exact E|].
    rewrite E in H. simpl in H. rewrite Hc in H. discriminate.
  - intros H. now rewrite (lstrip_all_space s H).
Qed.

(** C5: on an empty or whitespace-only input the submit handler shows the
    notice "Please enter a sentence.", starts no thread and leaves the
    progress bar, the result display and the queue as they were. *)
Theorem on_submit_blank (NP : ArgSort) (L : libs) (sentence : string)
        (st : gui) :
  all_space sentence = true ->
  dialogs (on_submit L sentence st)
  = dialogs st ++ [InfoBox "Info" "Please enter a sentence."]
  /\ threads (on_submit L sentence st) = threads st
  /\ progress_bar (on_submit L sentence st) = progress_bar st
  /\ result_text (on_submit L sentence st) = result_text st
  /\ result_queue (on_submit L sentence st) = result_queue st.
Proof.
  intros H. apply strip_empty_iff in H. unfold on_submit. rewrite H.
  simpl. repeat split.
Qed.

(** A sentence with a character that is not white space starts exactly one
    thread, after resetting the progress bar and clearing the display. *)
Lemma on_submit_sentence (NP : ArgSort) (L : libs) (sentence : string)
      (st : gui) :
  all_space sentence = false ->
  on_submit L sentence st
  = {| progress_bar := 0;
       result_text := "";
       result_queue := result_queue st;
       dialogs := dialogs st;
       threads :=
         threads st
         ++ [fst (find_similar_techniques L sentence update_progress)] |}.
Proof.
  intros H. unfold on_submit.
  destruct (is_empty (strip sentence)) eqn:E; [|reflexivity].
  apply strip_empty_iff in E. congruence.
Qed.

(** ** Runs of the background task *)

Lemma find_similar_techniques_run (NP : ArgSort) (L : libs)
      (sentence : string) :
  task_run L sentence (find_similar_techniques L sentence update_progress).
Proof.
  unfold find_similar_techniques.
  destruct (model_encode L sentence) as [e|sentence_embedding] eqn:E1.
  { cbn -[top_matches format_result]. now apply EncodingFailure. }
  destruct (lift_get_techniques L) as [e|techniques] eqn:E2.
  { cbn -[top_matches format_result]. eapply FetchFailure; eauto. }
  cbn -[top_matches format_result].
  fold (descriptions_of techniques).
  destruct (model_encode_batch L (descriptions_of techniques))
    as [e|descriptions_embeddings] eqn:E3.
  { cbn -[top_matches format_result]. eapply (RankingFailure L sentence _ _ [_]); eauto. }
  destruct (pytorch_cos_sim L sentence_embedding descriptions_embeddings)
    as [e|similarities] eqn:E4.
  { cbn -[top_matches format_result]. eapply (RankingFailure L sentence _ _ [_; _]); eauto. }
  destruct (getitem similarities 0) as [e|similarities0] eqn:E5.
  { cbn -[top_matches format_result]. eapply (RankingFailure L sentence _ _ [_; _]); eauto. }
  destruct (top_matches (map technique_detail techniques) similarities0)
    as [e|top] eqn:E6.
  { cbn -[top_matches format_result]. eapply (RankingFailure L sentence _ _ [_; _]); eauto. }
  cbn -[top_matches format_result]. eapply Completed; eauto.
Qed.

Lemma progress_calls_app (t t' : list action) :
  progress_calls (t ++ t') = progress_calls t ++ progress_calls t'.
Proof.
  induction t as [|a t IH]; simpl; [reflexivity|].
  destruct a; simpl; now rewrite ?IH.
Qed.

Lemma puts_app (t t' : list action) : puts (t ++ t') = puts t ++ puts t'.
Proof.
  induction t as [|a t IH]; simpl; [reflexivity|].
  destruct a; simpl; now rewrite ?IH.
Qed.

Lemma puts_In (t : list action) (item : string) :
  In item (puts t) <-> In (QueuePut item) t.
Proof.
  induction t as [|a t IH]; simpl; [tauto|].
  destruct a; simpl; rewrite IH; split; intros H;
    try (right; exact H); try (destruct H as [H|H]; [discriminate|exact H]).
  - destruct H as [->|H]; [now left|now right].
  - destruct H as [H|H]; [left; congruence|now right].
Qed.

(** C4: when encoding the query raises, or encoding succeeds and fetching
    the techniques raises, the task shows the error dialog as its last
    action and returns: nothing is put on the queue, the progress callback
    has been called with nothing (encoding) or with 20 only (fetching), and
    each provider has been called once, so nothing is retried. *)
Theorem failure_aborts_submission (NP : ArgSort) (L : libs)
        (sentence : string) (e : exn) :
  model_encode L sentence = inl e
  \/ (exists sentence_embedding,
         model_encode L sentence = inr sentence_embedding)
     /\ lift_get_techniques L = inl e ->
  exists t,
    find_similar_techniques L sentence update_progress = (t, inr tt)
    /\ puts t = []
    /\ ((t = [CallEncode sentence; encoding_error e]
         /\ progress_calls t = []
         /\ provider_calls t = [CallEncode sentence])
        \/ (t = encoded sentence ++ [CallGetTechniques; fetching_error e]
            /\ progress_calls t = [20%Z]
            /\ provider_calls t = [CallEncode sentence; CallGetTechniques])).
Proof.
  intros H.
  pose proof (find_similar_techniques_run NP L sentence) as R.
  destruct R as [e' E | emb e' E F | emb ts t e' E F _ | emb ts ? ? ? ? E F].
  - exists [CallEncode sentence; encoding_error e'].
    destruct H as [H|[[emb H] _]]; [|congruence].
    assert (e' = e) by congruence. subst e'.
    repeat split. left. repeat split.
  - exists (encoded sentence ++ [CallGetTechniques; fetching_error e']).
    destruct H as [H|[_ H]]; [congruence|].
    assert (e' = e) by congruence. subst e'.
    repeat split. right. repeat split.
  - destruct H as [H|[_ H]]; congruence.
  - destruct H as [H|[_ H]]; congruence.
Qed.

(** Whatever the run, an item it puts comes from a successful ranking of
    the fetched techniques. *)
Lemma puts_come_from_ranking (NP : ArgSort) (L : libs) (sentence : string)
      (item : string) :
  In (QueuePut item)
     (fst (find_similar_techniques L sentence update_progress)) ->
  exists sentence_embedding techniques descriptions_embeddings
         similarities similarities0 top,
    model_encode L sentence = inr sentence_embedding
    /\ lift_get_techniques L = inr techniques
    /\ model_encode_batch L (descriptions_of techniques)
       = inr descriptions_embeddings
    /\ pytorch_cos_sim L sentence_embedding descriptions_embeddings
       = inr similarities
    /\ getitem similarities 0 = inr similarities0
    /\ top_matches (map technique_detail techniques) similarities0 = inr top
    /\ item = format_result top
    /\ find_similar_techniques L sentence update_progress
       = (fetched sentence
          ++ [CallEncodeBatch (descriptions_of techniques); CallCosSim;
              QueuePut (format_result top);
              SetProgress 100; UpdateIdletasks],
          inr tt).
Proof.
  intros H.
  pose proof (find_similar_techniques_run NP L sentence) as R.
  destruct R as [e' E | emb e' E F | emb ts t e' E F D
                 | emb ts embs sims sims0 top E F G I J K];
    simpl in H.
  - destruct H as [H|[H|[]]]; discriminate.
  - repeat (destruct H as [H|H]; try discriminate). destruct H.
  - destruct D as [-> | ->]; simpl in H;
      repeat (destruct H as [H|H]; try discriminate); destruct H.
  - exists emb, ts, embs, sims, sims0, top.
    repeat (split; [assumption|]). split; [|reflexivity].
    repeat (destruct H as [H|H]; try discriminate); [|destruct H].
    now inversion H.
Qed.

(** The run of a task whose library calls and ranking all succeed, with
    any progress callback. *)
Lemma successful_run (NP : ArgSort) (L : libs) (sentence : string)
      (progress_callback : Z -> W unit)
      (sentence_embedding : embedding) (techniques : list raw_technique)
      (descriptions_embeddings : list embedding)
      (similarities : list (list pyfloat)) (similarities0 : list pyfloat)
      (top : list scored_match) (t20 t50 t100 : list action)
      (r100 : exn + unit) :
  model_encode L sentence = inr sentence_embedding ->
  lift_get_techniques L = inr techniques ->
  model_encode_batch L (descriptions_of techniques)
  = inr descriptions_embeddings ->
  pytorch_cos_sim L sentence_embedding descriptions_embeddings
  = inr similarities ->
  getitem similarities 0 = inr similarities0 ->
  top_matches (map technique_detail techniques) similarities0 = inr top ->
  progress_callback 20%Z = (t20, inr tt) ->
  progress_callback 50%Z = (t50, inr tt) ->
  progress_callback 100%Z = (t100, r100) ->
  find_similar_techniques L sentence progress_callback
  = (CallEncode sentence
       :: t20
       ++ CallGetTechniques
       :: t50
       ++ CallEncodeBatch (descriptions_of techniques)
       :: CallCosSim :: QueuePut (format_result top) :: t100,
     r100).
Proof.
  intros E F G H I J H20 H50 H100.
  unfold find_similar_techniques. rewrite E, F.
  cbn -[top_matches format_result getitem]. rewrite H20, H50.
  cbn -[top_matches format_result getitem].
  fold (descriptions_of techniques). rewrite G.
  cbn -[top_matches format_result getitem]. rewrite H.
  cbn -[top_matches format_result getitem]. rewrite I.
  cbn -[top_matches format_result getitem]. rewrite J.
  cbn -[top_matches format_result getitem]. rewrite H100.
  now rewrite !app_nil_r.
Qed.

(** C8: a run that puts a result on the queue is one in which encoding
    the query, fetching the techniques and the ranking all succeeded, and
    its actions are, in this order: the call that encodes the query, the
    progress callback with 20, the call that fetches the techniques, the
    callback with 50, the two calls of the ranking and the put of the
    result, the callback with 100.  So the callback receives 20, 50 and 100
    and nothing else, in non-decreasing order, and the run returns without
    raising.  The three calls are calls of the callback passed to the task:
    with any callback that returns at 20 and at 50, the actions of the
    callback stand at these three places of the run, which ends as the
    callback does at 100. *)
Theorem completed_run_milestones (NP : ArgSort) (L : libs)
        (sentence : string) (item : string) :
  In (QueuePut item)
     (fst (find_similar_techniques L sentence update_progress)) ->
  exists sentence_embedding techniques descriptions_embeddings
         similarities similarities0 top,
    model_encode L sentence = inr sentence_embedding
    /\ lift_get_techniques L = inr techniques
    /\ model_encode_batch L (descriptions_of techniques)
       = inr descriptions_embeddings
    /\ pytorch_cos_sim L sentence_embedding descriptions_embeddings
       = inr similarities
    /\ getitem similarities 0 = inr similarities0
    /\ top_matches (map technique_detail techniques) similarities0 = inr top
    /\ item = format_result top
    /\ find_similar_techniques L sentence update_progress
       = ([CallEncode sentence;
           SetProgress 20; UpdateIdletasks;
           CallGetTechniques;
           SetProgress 50; UpdateIdletasks;
           CallEncodeBatch (descriptions_of techniques); CallCosSim;
           QueuePut item;
           SetProgress 100; UpdateIdletasks],
          inr tt)
    /\ progress_calls
         (fst (find_similar_techniques L sentence update_progress))
       = [20; 50; 100]%Z
    /\ StronglySorted Z.le
         (progress_calls
            (fst (find_similar_techniques L sentence update_progress)))
    /\ (forall (progress_callback : Z -> W unit) (t20 t50 t100 : list action)
               (r100 : exn + unit),
           progress_callback 20%Z = (t20, inr tt) ->
           progress_callback 50%Z = (t50, inr tt) ->
           progress_callback 100%Z = (t100, r100) ->
           find_similar_techniques L sentence progress_callback
           = (CallEncode sentence
                :: t20
                ++ CallGetTechniques
                :: t50
                ++ CallEncodeBatch (descriptions_of techniques)
                :: CallCosSim :: QueuePut item :: t100,
              r100)).
Proof.
  intros H.
  destruct (puts_come_from_ranking NP L sentence item H)
    as (emb & ts & embs & sims & sims0 & top & E & F & G & I & J & K & -> & R).
  exists emb, ts, embs, sims, sims0, top.
  repeat (split; [assumption|]).
  split; [reflexivity|]. split; [exact R|]. rewrite R.
  split; [reflexivity|]. split; [repeat constructor; lia|].
  intros progress_callback t20 t50 t100 r100 H20 H50 H100.
  now apply (successful_run NP L sentence progress_callback emb ts embs
               sims sims0).
Qed.

(** Whatever happens, the values passed to the callback are an initial
    part of 20, 50, 100. *)
Lemma progress_calls_prefix (NP : ArgSort) (L : libs) (sentence : string) :
  exists k,
    progress_calls (fst (find_similar_techniques L sentence update_progress))
    = firstn k [20; 50; 100]%Z.
Proof.
  pose proof (find_similar_techniques_run NP L sentence) as R.
  destruct R as [e' E | emb e' E F | emb ts t e' E F D | emb ts ? ? ? ? E F];
    simpl.
  - now exists 0%nat.
  - now exists 1%nat.
  - exists 2%nat. destruct D as [-> | ->]; reflexivity.
  - now exists 3%nat.
Qed.

(** ** Schedules *)

Lemma append_empty_r (s : string) : (s ++ "")%string = s.
Proof. induction s as [|c s IH]; simpl; [reflexivity|now rewrite IH]. Qed.

Lemma append_associative (s1 s2 s3 : string) :
  ((s1 ++ s2) ++ s3)%string = (s1 ++ (s2 ++ s3))%string.
Proof. induction s1 as [|c s1 IH]; simpl; [reflexivity|now rewrite IH]. Qed.

Lemma concat_all_app (l l' : list string) :
  concat_all (l ++ l') = (concat_all l ++ concat_all l')%string.
Proof.
  induction l as [|x l IH]; simpl; [reflexivity|].
  now rewrite IH, append_associative.
Qed.

Section ScheduleFacts.
Context {NP : ArgSort}.

Lemma run_cons (ev : event) (schedule : list event) (st : gui) :
  run (ev :: schedule) st = run schedule (step ev st).
Proof. reflexivity. Qed.

Lemma run_app (s1 s2 : list event) (st : gui) :
  run (s1 ++ s2) st = run s2 (run s1 st).
Proof. unfold run. apply fold_left_app. Qed.

(** A step other than a submission moves results from the threads to the
    queue or from the queue to the display, and loses none. *)
Lemma step_delivers (ev : event) (st : gui) :
  is_submit ev = false ->
  exists done,
    delivered (step ev st) = (delivered st ++ concat_all done)%string
    /\ Permutation (done ++ pending (step ev st)) (pending st).
Proof.
  intros Hev. destruct ev as [L s|i|]; [discriminate| |]; simpl.
  - unfold worker_step.
    destruct (nth_error (threads st) i) as [[|a todo]|] eqn:E;
      try (exists []; simpl; now rewrite append_empty_r).
    pose proof (firstn_skipn_middle _ _ E) as Hsplit.
    set (before := firstn i (threads st)) in *.
    set (after := skipn (S i) (threads st)) in *.
    assert (Hp : flat_map puts (threads st)
                 = flat_map puts before ++ puts (a :: todo)
                            ++ flat_map puts after).
    { rewrite <- Hsplit at 1. rewrite flat_map_app. reflexivity. }
    destruct a as [| | | | | | |queued];
      try (exists []; unfold delivered, pending; simpl;
           rewrite append_empty_r, flat_map_app; simpl;
           split; [reflexivity|]; rewrite Hp; simpl; reflexivity).
    exists [queued]. unfold delivered, pending. simpl.
    rewrite concat_all_app, flat_map_app. simpl.
    rewrite append_associative. split; [reflexivity|].
    rewrite Hp. simpl. apply Permutation_middle.
  - unfold check_queue. destruct (result_queue st) as [|r q] eqn:E.
    + exists []. simpl. now rewrite append_empty_r.
    + exists []. unfold delivered, pending. simpl. rewrite E. simpl.
      now rewrite append_empty_r, append_associative.
Qed.

Lemma run_delivers (schedule : list event) :
  no_submit schedule ->
  forall st,
  exists done,
    delivered (run schedule st) = (delivered st ++ concat_all done)%string
    /\ Permutation (done ++ pending (run schedule st)) (pending st).
Proof.
  induction 1 as [|ev schedule Hev _ IH]; intros st.
  - exists []. simpl. now rewrite append_empty_r.
  - rewrite run_cons.
    destruct (step_delivers ev st Hev) as [d1 [E1 P1]].
    destruct (IH (step ev st)) as [d2 [E2 P2]].
    exists (d1 ++ d2). split.
    + now rewrite E2, E1, concat_all_app, append_associative.
    + rewrite <- P1, <- P2.
      rewrite <- !app_assoc. reflexivity.
Qed.
End ScheduleFacts.

(** ** Sample runs *)

Example sample_run :
  @find_similar_techniques stable_argsort (answering [34 # 100; 81 # 100])
                           "phishing email" update_progress
  = ([CallEncode "phishing email"; SetProgress 20; UpdateIdletasks;
      CallGetTechniques; SetProgress 50; UpdateIdletasks;
      CallEncodeBatch ["An adversary may rely on a user.";
                       "Adversaries may send phishing messages."];
      CallCosSim; QueuePut first_result; SetProgress 100; UpdateIdletasks],
     inr tt).
Proof. vm_compute. reflexivity. Qed.

Example sample_run_second :
  puts (fst (@find_similar_techniques stable_argsort
               (answering [9 # 10; 1 # 8]) "macro in a document"
               update_progress))
  = [second_result].
Proof. vm_compute. reflexivity. Qed.

Lemma failure_aborts_submission_witness :
  exists t,
    @find_similar_techniques stable_argsort corpus_down "phishing email"
                             update_progress = (t, inr tt)
    /\ puts t = []
    /\ ((t = [CallEncode "phishing email"; encoding_error "connection refused"]
         /\ progress_calls t = []
         /\ provider_calls t = [CallEncode "phishing email"])
        \/ (t = encoded "phishing email"
                ++ [CallGetTechniques; fetching_error "connection refused"]
            /\ progress_calls t = [20%Z]
            /\ provider_calls t
               = [CallEncode "phishing email"; CallGetTechniques])).
Proof.
  apply (failure_aborts_submission stable_argsort corpus_down
           "phishing email" "connection refused").
  right. split; [exists [1; 0]|]; reflexivity.
Defined.

Example model_down_run :
  @find_similar_techniques stable_argsort model_down "phishing email"
                           update_progress
  = ([CallEncode "phishing email";
      ShowError "Error" "Error encoding sentence: model not loaded"],
     inr tt).
Proof. reflexivity. Qed.

Lemma completed_run_milestones_witness :
  exists sentence_embedding techniques descriptions_embeddings
         similarities similarities0 top,
    model_encode (answering [34 # 100; 81 # 100]) "phishing email"
    = inr sentence_embedding
    /\ lift_get_techniques (answering [34 # 100; 81 # 100]) = inr techniques
    /\ model_encode_batch (answering [34 # 100; 81 # 100])
                          (descriptions_of techniques)
       = inr descriptions_embeddings
    /\ pytorch_cos_sim (answering [34 # 100; 81 # 100])
                       sentence_embedding descriptions_embeddings
       = inr similarities
    /\ getitem similarities 0 = inr similarities0
    /\ @top_matches stable_argsort (map technique_detail techniques)
                    similarities0 = inr top
    /\ first_result = format_result top
    /\ @find_similar_techniques stable_argsort
         (answering [34 # 100; 81 # 100]) "phishing email" update_progress
       = ([CallEncode "phishing email";
           SetProgress 20; UpdateIdletasks;
           CallGetTechniques;
           SetProgress 50; UpdateIdletasks;
           CallEncodeBatch (descriptions_of techniques); CallCosSim;
           QueuePut first_result;
           SetProgress 100; UpdateIdletasks],
          inr tt)
    /\ progress_calls
         (fst (@find_similar_techniques stable_argsort
                 (answering [34 # 100; 81 # 100]) "phishing email"
                 update_progress))
       = [20; 50; 100]%Z
    /\ StronglySorted Z.le
         (progress_calls
            (fst (@find_similar_techniques stable_argsort
                    (answering [34 # 100; 81 # 100]) "phishing email"
                    update_progress)))
    /\ (forall (progress_callback : Z -> W unit) (t20 t50 t100 : list action)
               (r100 : exn + unit),
           progress_callback 20%Z = (t20, inr tt) ->
           progress_callback 50%Z = (t50, inr tt) ->
           progress_callback 100%Z = (t100, r100) ->
           @find_similar_techniques stable_argsort
             (answering [34 # 100; 81 # 100]) "phishing email"
             progress_callback
           = (CallEncode "phishing email"
                :: t20
                ++ CallGetTechniques
                :: t50
                ++ CallEncodeBatch (descriptions_of techniques)
                :: CallCosSim :: QueuePut first_result :: t100,
              r100)).
Proof.
  apply (completed_run_milestones stable_argsort
           (answering [34 # 100; 81 # 100]) "phishing email" first_result).
  rewrite sample_run. simpl. do 8 right. left. reflexivity.
Defined.

(** A callback that is not called would leave no trace: with a callback
    that records nothing at 20 and 50 and raises at 100, the run has put
    its result and raises. *)
Example callback_is_called :
  @find_similar_techniques stable_argsort
     (answering [34 # 100; 81 # 100]) "phishing email"
     (fun value =>
        if (value =? 100)%Z then ([ShowError "callback" "100"], inl "late")
        else ([ShowError "callback" "early"], inr tt))
  = ([CallEncode "phishing email"; ShowError "callback" "early";
      CallGetTechniques; ShowError "callback" "early";
      CallEncodeBatch ["An adversary may rely on a user.";
                       "Adversaries may send phishing messages."];
      CallCosSim; QueuePut first_result; ShowError "callback" "100"],
     inl "late").
Proof. vm_compute. reflexivity. Qed.

Lemma on_submit_blank_witness :
  dialogs (@on_submit stable_argsort (answering [34 # 100; 81 # 100])
             "   " initial)
  = dialogs initial ++ [InfoBox "Info" "Please enter a sentence."]
  /\ threads (@on_submit stable_argsort (answering [34 # 100; 81 # 100])
                "   " initial) = threads initial
  /\ progress_bar (@on_submit stable_argsort (answering [34 # 100; 81 # 100])
                     "   " initial) = progress_bar initial
  /\ result_text (@on_submit stable_argsort (answering [34 # 100; 81 # 100])
                    "   " initial) = result_text initial
  /\ result_queue (@on_submit stable_argsort (answering [34 # 100; 81 # 100])
                     "   " initial) = result_queue initial.
Proof.
  apply (on_submit_blank stable_argsort (answering [34 # 100; 81 # 100])
           "   " initial).
  reflexivity.
Defined.

(** ** Results and the progress bar *)

(** Only a completed run puts something, and what it puts is the formatted
    list of its top matches. *)
Lemma puts_formatted (NP : ArgSort) (L : libs) (sentence : string) :
  puts (fst (find_similar_techniques L sentence update_progress)) = []
  \/ exists similarities0 top,
      top_matches
        (map technique_detail
             (match lift_get_techniques L with inr ts => ts | inl _ => [] end))
        similarities0 = inr top
      /\ puts (fst (find_similar_techniques L sentence update_progress))
         = [format_result top].
Proof.
  pose proof (find_similar_techniques_run NP L sentence) as R.
  destruct R as [e' E | emb e' E F | emb ts t e' E F D
                 | emb ts embs sims sims0 top E F G H I J]; simpl.
  - now left.
  - now left.
  - left. destruct D as [-> | ->]; reflexivity.
  - right. exists sims0, top. rewrite F. split; [exact J|reflexivity].
Qed.

Lemma task_quiet_after_100 (NP : ArgSort) (L : libs) (sentence : string) :
  quiet_after_100 (fst (find_similar_techniques L sentence update_progress))
  = true.
Proof.
  pose proof (find_similar_techniques_run NP L sentence) as R.
  destruct R as [e' E | emb e' E F | emb ts t e' E F D | emb ts ? ? ? ? E F];
    simpl; try reflexivity.
  destruct D as [-> | ->]; reflexivity.
Qed.

Section SingleThread.
Context {NP : ArgSort}.
Variable has_put : Prop.

Lemma step_one_thread (ev : event) (st : gui) :
  is_submit ev = false ->
  one_thread has_put st -> one_thread has_put (step ev st).
Proof.
  intros Hev (todo & Ht & Hq & Hp & Hin).
  destruct ev as [L s|i|]; [discriminate| |]; simpl.
  - unfold worker_step. rewrite Ht.
    destruct i as [|i]; simpl;
      [|destruct i; simpl; exists todo; repeat split; auto; apply Hp; auto].
    destruct todo as [|a todo'];
      [exists []; repeat split; auto; apply Hp; auto|].
    exists todo'.
    assert (Hin' : In (SetProgress 100) todo' -> has_put)
      by (intros H; apply Hin; now right).
    destruct a as [| | | |v| | |queued]; simpl in *;
      try (split; [reflexivity|]; split; [exact Hq|]; split;
           [intros H100; split; apply Hp; exact H100|exact Hin']).
    + apply andb_true_iff in Hq. destruct Hq as [Hv Hq].
      split; [reflexivity|]. split; [exact Hq|]. split; [|exact Hin'].
      intros ->. simpl in Hv. split.
      * now destruct (puts todo').
      * apply Hin. now left.
    + split; [reflexivity|]. split; [exact Hq|]. split; [|exact Hin'].
      intros H100. destruct (Hp H100) as [Hputs _]. discriminate.
  - unfold check_queue. destruct (result_queue st); exists todo;
      repeat split; auto; apply Hp; auto.
Qed.

Lemma run_one_thread (schedule : list event) :
  no_submit schedule ->
  forall st, one_thread has_put st -> one_thread has_put (run schedule st).
Proof.
  induction 1 as [|ev schedule Hev _ IH]; intros st Hst; [exact Hst|].
  rewrite run_cons. apply IH. now apply step_one_thread.
Qed.
End SingleThread.

(** C10: in every run of the task that calls the progress callback with
    100, the result was put on the queue immediately before, and nothing
    was put earlier; and once a single submission shows 100 on the
    progress bar, its result is in the queue or already on the display,
    whatever the interleaving of the thread with the timer. *)
Theorem result_queued_before_100 (NP : ArgSort) (L : libs)
        (sentence : string) :
  (In (SetProgress 100)
      (fst (find_similar_techniques L sentence update_progress)) ->
   exists before result,
     fst (find_similar_techniques L sentence update_progress)
     = before ++ [QueuePut result; SetProgress 100; UpdateIdletasks]
     /\ puts before = []
     /\ ~ In (SetProgress 100) before)
  /\ (all_space sentence = false ->
      forall schedule,
        no_submit schedule ->
        progress_bar (run (Submit L sentence :: schedule) initial) = 100%Z ->
        exists result,
          puts (fst (find_similar_techniques L sentence update_progress))
          = [result]
          /\ delivered (run (Submit L sentence :: schedule) initial)
             = result).
Proof.
  assert (T : In (SetProgress 100)
                 (fst (find_similar_techniques L sentence update_progress)) ->
              exists before result,
                fst (find_similar_techniques L sentence update_progress)
                = before ++ [QueuePut result; SetProgress 100; UpdateIdletasks]
                /\ puts before = []
                /\ ~ In (SetProgress 100) before).
  { intros H.
    pose proof (find_similar_techniques_run NP L sentence) as R.
    destruct R as [e' E | emb e' E F | emb ts t e' E F D
                   | emb ts embs sims sims0 top E F];
      simpl in *.
    - destruct H as [H|[H|[]]]; discriminate.
    - repeat (destruct H as [H|H]; try discriminate). destruct H.
    - destruct D as [-> | ->]; simpl in H;
        repeat (destruct H as [H|H]; try discriminate); destruct H.
    - exists (fetched sentence
              ++ [CallEncodeBatch (descriptions_of ts); CallCosSim]),
             (format_result top).
      split; [reflexivity|]. split; [reflexivity|].
      simpl. intros C.
      repeat (destruct C as [C|C]; try discriminate). destruct C. }
  split; [exact T|].
  intros Hs schedule Hns H100.
  rewrite run_cons in *. simpl in *.
  rewrite (on_submit_sentence NP L sentence initial Hs) in *.
  set (task := fst (find_similar_techniques L sentence update_progress)) in *.
  set (st0 := {| progress_bar := 0; result_text := "";
                 result_queue := result_queue initial;
                 dialogs := dialogs initial;
                 threads := threads initial ++ [task] |}) in *.
  assert (I0 : one_thread (In (SetProgress 100) task) st0).
  { exists task. split; [reflexivity|].
    split; [apply task_quiet_after_100|].
    split; [simpl; discriminate|tauto]. }
  destruct (run_one_thread _ schedule Hns st0 I0)
    as (todo & Ht & _ & Hp & _).
  destruct (Hp H100) as [Hputs Hin].
  destruct (T Hin) as (before & result & Etask & Hb & _).
  exists result.
  assert (Eputs : puts task = [result]).
  { rewrite Etask, puts_app, Hb. reflexivity. }
  split; [exact Eputs|].
  destruct (run_delivers schedule Hns st0) as (done & Ed & Pd).
  unfold pending in Pd. rewrite Ht in Pd. simpl in Pd.
  rewrite Hputs, Eputs in Pd. simpl in Pd. rewrite app_nil_r in Pd.
  apply Permutation_sym, Permutation_length_1_inv in Pd. subst done.
  rewrite Ed. unfold delivered. simpl. now rewrite append_empty_r.
Qed.

Lemma result_queued_before_100_witness :
  exists result,
    puts (fst (@find_similar_techniques stable_argsort
                 (answering [34 # 100; 81 # 100]) "phishing email"
                 update_progress))
    = [result]
    /\ delivered
         (@run stable_argsort
               (Submit (answering [34 # 100; 81 # 100]) "phishing email"
                       :: repeat (WorkerStep 0) 10 ++ [Tick])
               initial)
       = result.
Proof.
  apply (proj2 (result_queued_before_100 stable_argsort
                  (answering [34 # 100; 81 # 100]) "phishing email")).
  - reflexivity.
  - repeat constructor.
  - vm_compute. reflexivity.
Defined.

(** ** Two submissions *)

(** C9, as stated, fails: after two submissions in quick succession that
    both complete, the display holds the second result immediately after
    the first, with no blank line (and no character at all) between them. *)
Lemma two_results_not_separated_counterexample :
  result_queue (@run stable_argsort two_quick_submissions initial) = []
  /\ threads (@run stable_argsort two_quick_submissions initial) = [[]; []]
  /\ result_text (@run stable_argsort two_quick_submissions initial)
     = (first_result ++ second_result)%string
  /\ ~ separated_by_blank_line
         (result_text (@run stable_argsort two_quick_submissions initial))
         first_result second_result.
Proof.
  assert (E : result_text (@run stable_argsort two_quick_submissions initial)
              = (first_result ++ second_result)%string)
    by (vm_compute; reflexivity).
  rewrite E.
  split; [vm_compute; reflexivity|].
  split; [vm_compute; reflexivity|].
  split; [reflexivity|].
  intros [H|H]; apply String.eqb_eq in H; vm_compute in H; discriminate.
Qed.

(** C9, amended: take a moment at which no result is outstanding (the
    queue is empty and no thread has a result left to put), a submission,
    any steps of the threads and of the timer, and a second submission
    made while the display is still empty, that is, before the result of
    the first one is displayed.  When both tasks put a result, then, once
    both results have been put and taken from the queue, the display is
    the one result text immediately followed by the other, in the order of
    arrival on the queue, with nothing between or inside them; each result
    is the formatted list of top matches of its own task. *)
Theorem two_results_concatenated (NP : ArgSort) (L1 L2 : libs)
        (s1 s2 r1 r2 : string) (between schedule : list event) (st : gui) :
  result_queue st = [] ->
  pending st = [] ->
  all_space s1 = false ->
  all_space s2 = false ->
  puts (fst (find_similar_techniques L1 s1 update_progress)) = [r1] ->
  puts (fst (find_similar_techniques L2 s2 update_progress)) = [r2] ->
  no_submit between ->
  no_submit schedule ->
  result_text (run (Submit L1 s1 :: between) st) = "" ->
  pending (run (Submit L1 s1 :: between ++ Submit L2 s2 :: schedule) st)
  = [] ->
  result_queue (run (Submit L1 s1 :: between ++ Submit L2 s2 :: schedule) st)
  = [] ->
  (result_text
     (run (Submit L1 s1 :: between ++ Submit L2 s2 :: schedule) st)
   = (r1 ++ r2)%string
   \/ result_text
        (run (Submit L1 s1 :: between ++ Submit L2 s2 :: schedule) st)
      = (r2 ++ r1)%string)
  /\ (exists top1, r1 = format_result top1)
  /\ (exists top2, r2 = format_result top2).
Proof.
  intros Hq0 Hp0 H1 H2 P1 P2 Hnb Hns Hempty Hpend Hq.
  split.
  - change (Submit L1 s1 :: between ++ Submit L2 s2 :: schedule)
      with ((Submit L1 s1 :: between) ++ Submit L2 s2 :: schedule) in *.
    rewrite run_app in Hpend, Hq |- *.
    rewrite run_cons in Hempty.
    rewrite (run_cons (Submit L1 s1)) in Hpend, Hq |- *.
    rewrite (run_cons (Submit L2 s2)) in Hpend, Hq |- *.
    simpl step in *.
    rewrite (on_submit_sentence NP L1 s1 st H1) in *.
    set (st1 := {| progress_bar := 0; result_text := "";
                   result_queue := result_queue st;
                   dialogs := dialogs st;
                   threads :=
                     threads st
                     ++ [fst (find_similar_techniques L1 s1
                                                      update_progress)] |})
      in *.
    destruct (run_delivers between Hnb st1) as (done1 & Ed1 & Pd1).
    set (st2 := run between st1) in *.
    rewrite (on_submit_sentence NP L2 s2 st2 H2) in *.
    set (st3 := {| progress_bar := 0; result_text := "";
                   result_queue := result_queue st2;
                   dialogs := dialogs st2;
                   threads :=
                     threads st2
                     ++ [fst (find_similar_techniques L2 s2
                                                      update_progress)] |})
      in *.
    destruct (run_delivers schedule Hns st3) as (done2 & Ed2 & Pd2).
    rewrite Hpend, app_nil_r in Pd2.
    assert (E1 : pending st1 = [r1]).
    { unfold pending, st1. cbn [threads]. rewrite flat_map_app.
      fold (pending st). rewrite Hp0. simpl. now rewrite P1. }
    assert (E3 : pending st3 = pending st2 ++ [r2]).
    { unfold pending, st3. cbn [threads]. rewrite flat_map_app.
      simpl. now rewrite P2. }
    assert (D1 : delivered st1 = "").
    { unfold delivered, st1. cbn [result_text result_queue].
      now rewrite Hq0. }
    assert (D3 : delivered st3 = concat_all done1).
    { unfold delivered, st3. cbn [result_text result_queue].
      rewrite D1 in Ed1. unfold delivered in Ed1.
      rewrite Hempty in Ed1. exact Ed1. }
    rewrite D3, <- concat_all_app in Ed2.
    unfold delivered in Ed2. rewrite Hq in Ed2.
    cbn [concat_all fold_right] in Ed2. rewrite append_empty_r in Ed2.
    assert (P : Permutation (done1 ++ done2) [r1; r2]).
    { rewrite Pd2, E3, app_assoc, Pd1, E1. reflexivity. }
    rewrite Ed2.
    apply Permutation_sym, Permutation_length_2_inv in P.
    destruct P as [-> | ->]; simpl; rewrite append_empty_r; auto.
  - split.
    + destruct (puts_formatted NP L1 s1) as [E|(? & top & _ & E)];
        rewrite P1 in E; [discriminate|].
      exists top. congruence.
    + destruct (puts_formatted NP L2 s2) as [E|(? & top & _ & E)];
        rewrite P2 in E; [discriminate|].
      exists top. congruence.
Qed.

(** The first task runs to its end and its result waits on the queue when
    the second sentence is submitted; the second task then runs to its end
    and the timer fires twice. *)
Lemma two_results_concatenated_witness :
  (result_text
     (@run stable_argsort
           (Submit (answering [34 # 100; 81 # 100]) "phishing email"
              :: repeat (WorkerStep 0) 11
              ++ Submit (answering [9 # 10; 1 # 8]) "macro in a document"
              :: repeat (WorkerStep 1) 11 ++ [Tick; Tick])
           initial)
   = (first_result ++ second_result)%string
   \/ result_text
        (@run stable_argsort
              (Submit (answering [34 # 100; 81 # 100]) "phishing email"
                 :: repeat (WorkerStep 0) 11
                 ++ Submit (answering [9 # 10; 1 # 8]) "macro in a document"
                 :: repeat (WorkerStep 1) 11 ++ [Tick; Tick])
              initial)
      = (second_result ++ first_result)%string)
  /\ (exists top1, first_result = format_result top1)
  /\ (exists top2, second_result = format_result top2).
Proof.
  apply (two_results_concatenated stable_argsort
           (answering [34 # 100; 81 # 100]) (answering [9 # 10; 1 # 8])
           "phishing email" "macro in a document"
           first_result second_result
           (repeat (WorkerStep 0) 11)
           (repeat (WorkerStep 1) 11 ++ [Tick; Tick])
           initial).
  - reflexivity.
  - reflexivity.
  - reflexivity.
  - reflexivity.
  - vm_compute. reflexivity.
  - vm_compute. reflexivity.
  - repeat constructor.
  - repeat constructor.
  - vm_compute. reflexivity.
  - vm_compute. reflexivity.
  - vm_compute. reflexivity.
Defined.

(** The same two submissions one right after the other, and with the
    second task finishing first. *)
Example two_results_either_order :
  result_text (@run stable_argsort two_quick_submissions initial)
  = (first_result ++ second_result)%string
  /\ result_text
       (@run stable_argsort
             ([Submit (answering [34 # 100; 81 # 100]) "phishing email";
               Submit (answering [9 # 10; 1 # 8]) "macro in a document"]
                ++ repeat (WorkerStep 1) 11 ++ repeat (WorkerStep 0) 11
                ++ [Tick; Tick])
             initial)
     = (second_result ++ first_result)%string.
Proof. split; vm_compute; reflexivity. Qed.

(** A second submission made after the first result is displayed is
    outside the amended claim: it clears the display, which then holds
    the second result only. *)
Example late_second_submission :
  result_text
    (@run stable_argsort
          (Submit (answering [34 # 100; 81 # 100]) "phishing email"
             :: repeat (WorkerStep 0) 11 ++ [Tick]
             ++ Submit (answering [9 # 10; 1 # 8]) "macro in a document"
             :: repeat (WorkerStep 1) 11 ++ [Tick])
          initial)
  = second_result.
Proof. vm_compute. reflexivity. Qed.

(** ** The result text *)

Lemma join_cons (sep x : string) (l : list string) :
  l <> [] -> join sep (x :: l) = (x ++ sep ++ join sep l)%string.
Proof. destruct l; [congruence|reflexivity]. Qed.

Lemma join_app (sep : string) (l l' : list string) :
  l <> [] -> l' <> [] ->
  join sep (l ++ l') = (join sep l ++ sep ++ join sep l')%string.
Proof.
  intros Hl Hl'. induction l as [|x l IH]; [congruence|].
  destruct l as [|y l].
  - simpl app. now rewrite join_cons.
  - change ((x :: y :: l) ++ l') with (x :: ((y :: l) ++ l')).
    rewrite join_cons by discriminate.
    rewrite IH by discriminate.
    rewrite (join_cons sep x (y :: l)) by discriminate.
    now rewrite !append_associative.
Qed.

Lemma format_match_lines (m : scored_match) :
  format_match m = join nl (block_lines m).
Proof.
  unfold format_match, block_lines, join. cbn [String.concat].
  now rewrite !append_associative.
Qed.

Lemma blank_line_separated_nonempty (m : scored_match)
      (top : list scored_match) :
  blank_line_separated (map block_lines (m :: top)) <> [].
Proof. simpl. destruct (map block_lines top); discriminate. Qed.

Lemma format_result_layout (top : list scored_match) :
  format_result top = spec_result_text top.
Proof.
  unfold format_result, spec_result_text.
  induction top as [|m top IH]; [reflexivity|].
  destruct top as [|m' top].
  - simpl. apply format_match_lines.
  - change (map format_match (m :: m' :: top))
      with (format_match m :: map format_match (m' :: top)).
    rewrite join_cons by discriminate. rewrite IH.
    change (blank_line_separated (map block_lines (m :: m' :: top)))
      with (block_lines m
              ++ "" :: blank_line_separated (map block_lines (m' :: top))).
    rewrite join_app; [|discriminate|discriminate].
    rewrite join_cons by apply blank_line_separated_nonempty.
    rewrite format_match_lines. simpl append.
    now rewrite !append_associative.
Qed.

(** ** Four decimal places *)

Lemma round_half_even_close (q : Q) :
  (Qabs (q - inject_Z (round_half_even q)) <= 1 # 2)%Q.
Proof.
  destruct q as [n d]. unfold round_half_even. simpl Qnum. simpl Qden.
  pose proof (Z.div_mod n (Z.pos d) ltac:(lia)) as Hdm.
  pose proof (Z.mod_pos_bound n (Z.pos d) ltac:(lia)) as Hr.
  set (f := (n / Z.pos d)%Z) in *. set (r := (n mod Z.pos d)%Z) in *.
  clearbody f r.
  apply Qabs_Qle_condition.
  assert (Hf : (- (1 # 2) <= (n # d) - inject_Z f <= 1 # 2)%Q
               <-> (2 * r <= Z.pos d)%Z).
  { unfold Qle, Qminus, Qplus, Qopp, inject_Z. cbn [Qnum Qden].
    rewrite ?Pos.mul_1_r, ?Pos2Z.opp_pos. lia. }
  assert (Hf1 : (- (1 # 2) <= (n # d) - inject_Z (f + 1) <= 1 # 2)%Q
                <-> (Z.pos d <= 2 * r)%Z).
  { unfold Qle, Qminus, Qplus, Qopp, inject_Z. cbn [Qnum Qden].
    rewrite ?Pos.mul_1_r, ?Pos2Z.opp_pos. lia. }
  destruct (2 * r ?= Z.pos d)%Z eqn:C.
  - apply Z.compare_eq in C.
    destruct (Z.even f); [apply Hf|apply Hf1]; lia.
  - rewrite Z.compare_lt_iff in C. apply Hf. lia.
  - rewrite Z.compare_gt_iff in C. apply Hf1. lia.
Qed.

Lemma digit_value (n : Z) :
  (Z.of_nat (nat_of_ascii (digit n)) - 48 = n mod 10)%Z.
Proof.
  unfold digit.
  pose proof (Z.mod_pos_bound n 10 ltac:(lia)) as Hb.
  rewrite nat_ascii_embedding by lia. lia.
Qed.

Lemma parse_digits_app (s s' : string) :
  forall acc,
    parse_digits acc (s ++ s') = parse_digits (parse_digits acc s) s'.
Proof. induction s as [|c s IH]; intros acc; simpl; [reflexivity|apply IH]. Qed.

Lemma parse_decimal_digits (fuel : nat) :
  forall n, (0 <= n < 2 ^ Z.of_nat fuel)%Z ->
            parse_digits 0 (decimal_digits fuel n) = n.
Proof.
  induction fuel as [|fuel IH]; intros n Hn.
  - simpl in Hn. assert (n = 0%Z) by lia. now subst.
  - cbn [decimal_digits]. destruct (n <? 10)%Z eqn:E.
    + apply Z.ltb_lt in E. cbn [parse_digits]. rewrite digit_value.
      rewrite Z.mod_small; lia.
    + apply Z.ltb_ge in E. rewrite parse_digits_app, IH.
      * cbn [parse_digits]. rewrite digit_value.
        pose proof (Z.div_mod n 10 ltac:(lia)). lia.
      * rewrite Nat2Z.inj_succ, Z.pow_succ_r in Hn by lia.
        pose proof (Z.div_mod n 10 ltac:(lia)).
        pose proof (Z.mod_pos_bound n 10 ltac:(lia)). lia.
Qed.

Lemma parse_decimal (n : Z) :
  (0 <= n)%Z -> parse_digits 0 (decimal n) = n.
Proof.
  intros Hn. unfold decimal. apply parse_decimal_digits.
  split; [exact Hn|].
  destruct (Z.eq_dec n 0) as [->|Hz]; [simpl; lia|].
  rewrite Nat2Z.inj_succ, Z2Nat.id by apply Z.log2_nonneg.
  apply Z.log2_spec. lia.
Qed.

Lemma parse_fraction4 (m : Z) :
  (0 <= m < 10000)%Z -> parse_digits 0 (fraction4 m) = m.
Proof.
  intros Hm. unfold fraction4. cbn [parse_digits]. rewrite !digit_value.
  pose proof (Z.div_mod m 1000 ltac:(lia)).
  pose proof (Z.mod_pos_bound m 1000 ltac:(lia)).
  pose proof (Z.div_mod m 100 ltac:(lia)).
  pose proof (Z.mod_pos_bound m 100 ltac:(lia)).
  pose proof (Z.div_mod m 10 ltac:(lia)).
  pose proof (Z.mod_pos_bound m 10 ltac:(lia)).
  pose proof (Z.div_mod (m / 1000) 10 ltac:(lia)).
  pose proof (Z.mod_pos_bound (m / 1000) 10 ltac:(lia)).
  pose proof (Z.div_mod (m / 100) 10 ltac:(lia)).
  pose proof (Z.mod_pos_bound (m / 100) 10 ltac:(lia)).
  pose proof (Z.div_mod (m / 10) 10 ltac:(lia)).
  pose proof (Z.mod_pos_bound (m / 10) 10 ltac:(lia)).
  lia.
Qed.

Example format_4f_examples :
  format_4f (Float (81 # 100)) = "0.8100"
  /\ format_4f (Float (1 # 32)) = "0.0312"
  /\ format_4f (Float (3 # 32)) = "0.0938"
  /\ format_4f (Float (- (12345 # 10000))) = "-1.2345"
  /\ format_4f (Float 1) = "1.0000"
  /\ format_4f (Float (99996 # 100000)) = "1.0000"
  /\ format_4f (Float 0) = "0.0000"
  /\ format_4f NegZero = "-0.0000"
  /\ format_4f (neg (Float 0)) = "-0.0000"
  /\ format_4f (Float (- (1 # 100000))) = "-0.0000".
Proof. repeat split; vm_compute; reflexivity. Qed.

Lemma round_half_even_nearest (q : Q) : nearest_even q (round_half_even q).
Proof.
  destruct q as [n d]. unfold nearest_even, round_half_even.
  cbn [Qnum Qden].
  pose proof (Z.div_mod n (Z.pos d) ltac:(lia)) as Hdm.
  pose proof (Z.mod_pos_bound n (Z.pos d) ltac:(lia)) as Hr.
  set (f := (n / Z.pos d)%Z) in *. set (r := (n mod Z.pos d)%Z) in *.
  clearbody f r.
  assert (G : forall z : Z,
             ((- (1 # 2) <= (n # d) - inject_Z z <= 1 # 2)%Q
              <-> (- Z.pos d <= 2 * (n - z * Z.pos d) <= Z.pos d)%Z)
             /\ (((n # d) - inject_Z z == 1 # 2)%Q
                 <-> (2 * (n - z * Z.pos d) = Z.pos d)%Z)
             /\ (((n # d) - inject_Z z == - (1 # 2))%Q
                 <-> (2 * (n - z * Z.pos d) = - Z.pos d)%Z)).
  { intros z. unfold Qle, Qeq, Qminus, Qplus, Qopp, inject_Z.
    cbn [Qnum Qden]. rewrite ?Pos.mul_1_r, ?Pos2Z.opp_pos.
    repeat split; lia. }
  destruct (2 * r ?= Z.pos d)%Z eqn:C.
  - apply Z.compare_eq in C. destruct (Z.even f) eqn:Ef.
    + destruct (G f) as (G1 & _ & _). split; [apply G1; lia|auto].
    + destruct (G (f + 1)%Z) as (G1 & _ & _). split; [apply G1; lia|].
      intros _. rewrite Z.even_add, Ef. reflexivity.
  - rewrite Z.compare_lt_iff in C. destruct (G f) as (G1 & G2 & G3).
    split; [apply G1; lia|]. intros [H|H]; [apply G2 in H|apply G3 in H]; lia.
  - rewrite Z.compare_gt_iff in C.
    destruct (G (f + 1)%Z) as (G1 & G2 & G3).
    split; [apply G1; lia|]. intros [H|H]; [apply G2 in H|apply G3 in H]; lia.
Qed.

(** Only one integer is nearest in this sense. *)
Lemma nearest_even_unique (q : Q) (r r' : Z) :
  nearest_even q r -> nearest_even q r' -> r = r'.
Proof.
  destruct q as [n d]. unfold nearest_even.
  assert (G : forall z : Z,
             ((- (1 # 2) <= (n # d) - inject_Z z <= 1 # 2)%Q
              <-> (- Z.pos d <= 2 * (n - z * Z.pos d) <= Z.pos d)%Z)
             /\ (((n # d) - inject_Z z == 1 # 2)%Q
                 <-> (2 * (n - z * Z.pos d) = Z.pos d)%Z)
             /\ (((n # d) - inject_Z z == - (1 # 2))%Q
                 <-> (2 * (n - z * Z.pos d) = - Z.pos d)%Z)).
  { intros z. unfold Qle, Qeq, Qminus, Qplus, Qopp, inject_Z.
    cbn [Qnum Qden]. rewrite ?Pos.mul_1_r, ?Pos2Z.opp_pos.
    repeat split; lia. }
  intros [B T] [B' T'].
  destruct (G r) as (G1 & G2 & G3). destruct (G r') as (G1' & G2' & G3').
  apply G1 in B. apply G1' in B'.
  assert (D : (r = r' \/ r = r' + 1 \/ r' = r + 1)%Z) by nia.
  destruct D as [D|[D|D]]; [exact D| |]; exfalso.
  - assert (E : Z.even r = true) by (apply T; right; apply G3; nia).
    assert (E' : Z.even r' = true) by (apply T'; left; apply G2'; nia).
    subst r. rewrite Z.even_add, E' in E. discriminate.
  - assert (E : Z.even r = true) by (apply T; left; apply G2; nia).
    assert (E' : Z.even r' = true) by (apply T'; right; apply G3'; nia).
    subst r'. rewrite Z.even_add, E in E'. discriminate.
Qed.

Lemma is_digit_digit (n : Z) : is_digit (digit n) = true.
Proof.
  unfold is_digit, digit.
  pose proof (Z.mod_pos_bound n 10 ltac:(lia)) as Hb.
  rewrite nat_ascii_embedding by lia.
  apply andb_true_iff. split; apply Nat.leb_le; lia.
Qed.

Lemma all_digits_app (s s' : string) :
  all_digits (s ++ s') = all_digits s && all_digits s'.
Proof.
  induction s as [|c s IH]; simpl; [reflexivity|].
  now rewrite IH, andb_assoc.
Qed.

Lemma all_digits_fraction4 (m : Z) : all_digits (fraction4 m) = true.
Proof. unfold fraction4. cbn [all_digits]. now rewrite !is_digit_digit. Qed.

Lemma all_digits_decimal_digits (fuel : nat) :
  forall n, all_digits (decimal_digits fuel n) = true.
Proof.
  induction fuel as [|fuel IH]; intros n; cbn [decimal_digits all_digits];
    [reflexivity|].
  destruct (n <? 10)%Z; cbn [all_digits].
  - now rewrite is_digit_digit.
  - rewrite all_digits_app, IH. cbn [all_digits]. now rewrite is_digit_digit.
Qed.

Lemma digit_nonzero (n : Z) : (1 <= n < 10)%Z -> digit n <> "0"%char.
Proof.
  intros Hn E. apply (f_equal nat_of_ascii) in E. unfold digit in E.
  rewrite Z.mod_small in E by lia.
  rewrite nat_ascii_embedding in E by lia.
  change (nat_of_ascii "0") with 48%nat in E. lia.
Qed.

(** A positive number is written without a leading zero. *)
Lemma decimal_digits_leading (fuel : nat) :
  forall n, (1 <= n < 2 ^ Z.of_nat fuel)%Z ->
            exists c rest,
              decimal_digits fuel n = String c rest /\ c <> "0"%char.
Proof.
  induction fuel as [|fuel IH]; intros n Hn.
  - simpl in Hn. lia.
  - cbn [decimal_digits]. destruct (n <? 10)%Z eqn:E.
    + apply Z.ltb_lt in E. exists (digit n), "". split; [reflexivity|].
      apply digit_nonzero. lia.
    + apply Z.ltb_ge in E.
      destruct (IH (n / 10)%Z) as (c & rest & Hd & Hc).
      { rewrite Nat2Z.inj_succ, Z.pow_succ_r in Hn by lia.
        pose proof (Z.div_mod n 10 ltac:(lia)).
        pose proof (Z.mod_pos_bound n 10 ltac:(lia)). lia. }
      rewrite Hd. cbn [append].
      now exists c, (rest ++ String (digit n) "")%string.
Qed.

Lemma canonical_decimal (n : Z) : (0 <= n)%Z -> canonical_numeral (decimal n).
Proof.
  intros Hn. split; [apply all_digits_decimal_digits|].
  destruct (Z.eq_dec n 0) as [->|Hz]; [exact I|].
  destruct (decimal_digits_leading (S (Z.to_nat (Z.log2 n))) n)
    as (c & rest & Hd & Hc).
  { split; [lia|].
    rewrite Nat2Z.inj_succ, Z2Nat.id by apply Z.log2_nonneg.
    apply Z.log2_spec. lia. }
  unfold decimal. rewrite Hd. now destruct rest.
Qed.

(** The text of a similarity is its rendering with four decimals. *)
Lemma format_4f_fixed (x : pyfloat) : fixed_4_decimals x (format_4f x).
Proof.
  set (r := round_half_even (number x * 10000)).
  assert (Hr : (0 <= Z.abs r)%Z) by apply Z.abs_nonneg.
  exists (decimal (Z.abs r / 10000)), (fraction4 (Z.abs r mod 10000)), r.
  split; [reflexivity|].
  split; [apply canonical_decimal, Z.div_pos; lia|].
  split; [apply all_digits_fraction4|].
  split; [reflexivity|].
  split; [apply round_half_even_nearest|].
  rewrite parse_decimal by (apply Z.div_pos; lia).
  rewrite parse_fraction4 by (apply Z.mod_pos_bound; lia).
  pose proof (Z.div_mod (Z.abs r) 10000 ltac:(lia)). lia.
Qed.

Lemma parse_digits_acc (s : string) :
  forall acc,
    parse_digits acc s
    = (acc * 10 ^ Z.of_nat (String.length s) + parse_digits 0 s)%Z.
Proof.
  induction s as [|c s IH]; intros acc.
  - cbn [parse_digits String.length]. change (Z.of_nat 0) with 0%Z.
    rewrite Z.pow_0_r. lia.
  - cbn [parse_digits String.length].
    rewrite (IH (10 * acc + (Z.of_nat (nat_of_ascii c) - 48))%Z).
    rewrite (IH (10 * 0 + (Z.of_nat (nat_of_ascii c) - 48))%Z).
    rewrite Nat2Z.inj_succ, Z.pow_succ_r by lia. ring.
Qed.

Lemma is_digit_value (c : ascii) :
  is_digit c = true -> (0 <= Z.of_nat (nat_of_ascii c) - 48 <= 9)%Z.
Proof.
  unfold is_digit. intros H. apply andb_true_iff in H.
  destruct H as [H1 H2]. apply Nat.leb_le in H1, H2. lia.
Qed.

Lemma parse_digits_bound (s : string) :
  all_digits s = true ->
  (0 <= parse_digits 0 s < 10 ^ Z.of_nat (String.length s))%Z.
Proof.
  induction s as [|c s IH]; intros H.
  - cbn. lia.
  - cbn [all_digits] in H. apply andb_true_iff in H. destruct H as [Hc Hs].
    cbn [parse_digits String.length]. rewrite parse_digits_acc.
    rewrite Nat2Z.inj_succ, Z.pow_succ_r by lia.
    pose proof (is_digit_value c Hc). specialize (IH Hs).
    set (p := (10 ^ Z.of_nat (String.length s))%Z) in *.
    set (v := (Z.of_nat (nat_of_ascii c) - 48)%Z) in *.
    clearbody p v. nia.
Qed.

(** Two strings of digits of the same length that denote the same number
    are the same string. *)
Lemma parse_digits_same_length (s : string) :
  forall s',
    String.length s = String.length s' ->
    all_digits s = true -> all_digits s' = true ->
    parse_digits 0 s = parse_digits 0 s' -> s = s'.
Proof.
  induction s as [|c s IH]; intros [|c' s'] Hl Hs Hs' E;
    try discriminate; [reflexivity|].
  cbn [String.length] in Hl. injection Hl as Hl.
  cbn [all_digits] in Hs, Hs'.
  apply andb_true_iff in Hs, Hs'.
  destruct Hs as [Hc Hs], Hs' as [Hc' Hs'].
  cbn [parse_digits] in E.
  rewrite (parse_digits_acc s), (parse_digits_acc s'), <- Hl in E.
  pose proof (parse_digits_bound s Hs) as B.
  pose proof (parse_digits_bound s' Hs') as B'. rewrite <- Hl in B'.
  pose proof (is_digit_value c Hc) as V.
  pose proof (is_digit_value c' Hc') as V'.
  set (p := (10 ^ Z.of_nat (String.length s))%Z) in *.
  set (v := (Z.of_nat (nat_of_ascii c) - 48)%Z) in *.
  set (v' := (Z.of_nat (nat_of_ascii c') - 48)%Z) in *.
  set (n := parse_digits 0 s) in *. set (n' := parse_digits 0 s') in *.
  assert (Ev : v = v') by (clearbody p v v' n n'; nia).
  assert (En : n = n') by (clearbody p v v' n n'; nia).
  f_equal.
  - unfold v, v' in Ev.
    assert (Ec : nat_of_ascii c = nat_of_ascii c') by lia.
    apply (f_equal ascii_of_nat) in Ec.
    now rewrite !ascii_nat_embedding in Ec.
  - apply IH; assumption.
Qed.

(** A numeral of two digits or more denotes a number of that many
    digits. *)
Lemma canonical_numeral_lower (s : string) :
  canonical_numeral s ->
  (2 <= String.length s)%nat ->
  (10 ^ Z.of_nat (String.length s - 1) <= parse_digits 0 s)%Z.
Proof.
  intros [Hd Hc] Hl. destruct s as [|c t]; [cbn in Hl; lia|].
  assert (Hn : c <> "0"%char) by (destruct t; [cbn in Hl; lia|exact Hc]).
  clear Hc.
  cbn [all_digits] in Hd. apply andb_true_iff in Hd. destruct Hd as [Dc Ds].
  assert (Hv : (1 <= Z.of_nat (nat_of_ascii c) - 48)%Z).
  { pose proof (is_digit_value c Dc) as V.
    assert (N : (Z.of_nat (nat_of_ascii c) - 48 <> 0)%Z).
    { intros Z0. apply Hn.
      assert (Ec : nat_of_ascii c = 48%nat) by lia.
      apply (f_equal ascii_of_nat) in Ec.
      now rewrite ascii_nat_embedding in Ec. }
    lia. }
  pose proof (parse_digits_bound t Ds) as B.
  change (parse_digits 0 (String c t))
    with (parse_digits (10 * 0 + (Z.of_nat (nat_of_ascii c) - 48)) t).
  rewrite parse_digits_acc.
  replace (String.length (String c t) - 1)%nat with (String.length t)
    by (cbn [String.length]; lia).
  set (p := (10 ^ Z.of_nat (String.length t))%Z) in *.
  set (n := parse_digits 0 t) in *.
  set (v := (Z.of_nat (nat_of_ascii c) - 48)%Z) in *.
  clearbody p n v. nia.
Qed.

(** A number has one numeral. *)
Lemma canonical_numeral_unique (s s' : string) :
  canonical_numeral s -> canonical_numeral s' ->
  parse_digits 0 s = parse_digits 0 s' -> s = s'.
Proof.
  intros C C' E.
  assert (L : forall t t',
             canonical_numeral t -> canonical_numeral t' ->
             parse_digits 0 t = parse_digits 0 t' ->
             (String.length t <= String.length t')%nat).
  { intros t t' Ct Ct' Et.
    destruct (Nat.le_gt_cases (String.length t) (String.length t'))
      as [Hle|Hgt]; [exact Hle|exfalso].
    assert (H1 : (1 <= String.length t')%nat).
    { destruct Ct' as [_ Hc]. destruct t'; [destruct Hc|cbn; lia]. }
    pose proof (canonical_numeral_lower t Ct ltac:(lia)) as Lo.
    pose proof (parse_digits_bound t' (proj1 Ct')) as Up.
    assert (Hpow : (10 ^ Z.of_nat (String.length t')
                    <= 10 ^ Z.of_nat (String.length t - 1))%Z)
      by (apply Z.pow_le_mono_r; lia).
    lia. }
  apply parse_digits_same_length; [|apply C|apply C'|exact E].
  apply Nat.le_antisymm; [apply L|apply L]; auto.
Qed.

(** The rendering with four decimals is determined by the float: it is
    the text the program writes. *)
Lemma fixed_4_decimals_unique (x : pyfloat) (text text' : string) :
  fixed_4_decimals x text -> fixed_4_decimals x text' -> text = text'.
Proof.
  intros (w & p & r & -> & Cw & Dp & Lp & N & V)
         (w' & p' & r' & -> & Cw' & Dp' & Lp' & N' & V').
  assert (Er : r = r') by (eapply nearest_even_unique; eassumption).
  subst r'.
  pose proof (parse_digits_bound p Dp) as B.
  pose proof (parse_digits_bound p' Dp') as B'.
  rewrite Lp in B. rewrite Lp' in B'.
  change (10 ^ Z.of_nat 4)%Z with 10000%Z in B, B'.
  pose proof (parse_digits_bound w (proj1 Cw)) as [W _].
  pose proof (parse_digits_bound w' (proj1 Cw')) as [W' _].
  assert (Ew : parse_digits 0 w = parse_digits 0 w') by lia.
  assert (Ep : parse_digits 0 p = parse_digits 0 p') by lia.
  rewrite (canonical_numeral_unique w w' Cw Cw' Ew).
  rewrite (parse_digits_same_length p p' ltac:(congruence) Dp Dp' Ep).
  reflexivity.
Qed.


(** C7: when the library calls and the ranking succeed, the task puts
    exactly one item on the queue, the text of the top matches of that
    ranking.  The text consists of the four lines "ID: ...", "Name: ...",
    "Tactic: ...", "Similarity: ..." of each match, joined by single
    newlines, with exactly one empty line between two consecutive blocks.
    The similarity is written with four decimals: a minus sign when the
    sign bit is set, the integer part, a point and exactly four digits,
    denoting the magnitude rounded to the nearest multiple of 0.0001, to
    the even one of two that are equally near; the text written is the
    only one of this description. *)
Theorem result_text_layout (NP : ArgSort) (L : libs) (sentence : string)
        (sentence_embedding : embedding) (techniques : list raw_technique)
        (descriptions_embeddings : list embedding)
        (similarities : list (list pyfloat)) (similarities0 : list pyfloat)
        (top : list scored_match) :
  model_encode L sentence = inr sentence_embedding ->
  lift_get_techniques L = inr techniques ->
  model_encode_batch L (descriptions_of techniques)
  = inr descriptions_embeddings ->
  pytorch_cos_sim L sentence_embedding descriptions_embeddings
  = inr similarities ->
  getitem similarities 0 = inr similarities0 ->
  top_matches (map technique_detail techniques) similarities0 = inr top ->
  puts (fst (find_similar_techniques L sentence update_progress))
  = [format_result top]
  /\ format_result top = spec_result_text top
  /\ (forall m, In m top ->
                fixed_4_decimals (similarity m) (format_4f (similarity m)))
  /\ (forall top', format_result top' = spec_result_text top')
  /\ (forall x, fixed_4_decimals x (format_4f x))
  /\ (forall x text, fixed_4_decimals x text -> text = format_4f x).
Proof.
  intros E F G H I J.
  split.
  - rewrite (successful_run NP L sentence update_progress _ _ _ _ _ _
               [SetProgress 20; UpdateIdletasks]
               [SetProgress 50; UpdateIdletasks]
               [SetProgress 100; UpdateIdletasks] (inr tt)
               E F G H I J eq_refl eq_refl eq_refl).
    reflexivity.
  - split; [apply format_result_layout|].
    split; [intros m _; apply format_4f_fixed|].
    split; [exact format_result_layout|].
    split; [exact format_4f_fixed|].
    intros x text T.
    exact (fixed_4_decimals_unique x text (format_4f x) T (format_4f_fixed x)).
Qed.

Lemma result_text_layout_witness :
  puts (fst (@find_similar_techniques stable_argsort
               (answering [34 # 100; 81 # 100]) "phishing email"
               update_progress))
  = [format_result
       [ {| detail := T1566; similarity := Float (81 # 100) |};
         {| detail := T1204; similarity := Float (34 # 100) |} ]]
  /\ format_result
       [ {| detail := T1566; similarity := Float (81 # 100) |};
         {| detail := T1204; similarity := Float (34 # 100) |} ]
     = spec_result_text
         [ {| detail := T1566; similarity := Float (81 # 100) |};
           {| detail := T1204; similarity := Float (34 # 100) |} ]
  /\ (forall m,
         In m [ {| detail := T1566; similarity := Float (81 # 100) |};
                {| detail := T1204; similarity := Float (34 # 100) |} ] ->
         fixed_4_decimals (similarity m) (format_4f (similarity m)))
  /\ (forall top', format_result top' = spec_result_text top')
  /\ (forall x, fixed_4_decimals x (format_4f x))
  /\ (forall x text, fixed_4_decimals x text -> text = format_4f x).
Proof.
  apply (result_text_layout stable_argsort
           (answering [34 # 100; 81 # 100]) "phishing email" [1; 0]
           [user_execution; phishing] [[1; 0]; [1; 0]]
           [map Float [34 # 100; 81 # 100]]
           (map Float [34 # 100; 81 # 100])
           [ {| detail := T1566; similarity := Float (81 # 100) |};
             {| detail := T1204; similarity := Float (34 # 100) |} ]);
    reflexivity.
Defined.

(** * Properties of the rest of the program *)

(** ** Dependency bootstrap *)

Lemma prefix_append (needle hay : string) :
  String.prefix needle hay = true
  <-> exists after, hay = (needle ++ after)%string.
Proof.
  revert hay. induction needle as [|c needle IH]; intros hay.
  - split; [intros _; now exists hay|]. intros _. now destruct hay.
  - destruct hay as [|d hay]; simpl.
    + split; [discriminate|intros [after H]; discriminate].
    + destruct (ascii_dec c d) as [->|Hcd].
      * rewrite IH. split; intros [after H]; exists after.
        -- now rewrite H.
        -- now inversion H.
      * split; [discriminate|intros [after H]; inversion H; congruence].
Qed.

Lemma contains_occurs_in (needle hay : string) :
  Setup.contains needle hay = true <-> Setup.occurs_in needle hay.
Proof.
  split.
  - induction hay as [|c hay IH]; cbn [Setup.contains]; intros H;
      apply orb_true_iff in H; destruct H as [H|H]; try discriminate.
    + apply prefix_append in H. destruct H as [after H].
      now exists "", after.
    + apply prefix_append in H. destruct H as [after H].
      now exists "", after.
    + destruct (IH H) as (before & after & E).
      exists (String c before), after. simpl. now rewrite E.
  - intros (before & after & E). subst hay.
    induction before as [|c before IH].
    + assert (P : String.prefix needle (needle ++ after) = true)
        by (apply prefix_append; now exists after).
      simpl append. destruct (needle ++ after)%string;
        cbn [Setup.contains]; now rewrite P.
    + simpl append. cbn [Setup.contains]. apply orb_true_iff. now right.
Qed.

Lemma installs_app (t t' : list Setup.action) :
  Setup.installs (t ++ t') = Setup.installs t ++ Setup.installs t'.
Proof.
  induction t as [|a t IH]; simpl; [reflexivity|].
  destruct a; simpl; now rewrite ?IH.
Qed.

Lemma imports_app (t t' : list Setup.action) :
  Setup.imports (t ++ t') = Setup.imports t ++ Setup.imports t'.
Proof.
  induction t as [|a t IH]; simpl; [reflexivity|].
  destruct a; simpl; now rewrite ?IH.
Qed.

(** The loop asks pip for an initial part of the list, without a gap, and
    imports nothing; it goes through the whole list unless a call raises,
    and then the call that raises is the last one. *)
Lemma install_each_prefix (S : Setup.system) (packages : list string) :
  Setup.imports (fst (Setup.install_each S packages)) = []
  /\ exists rest,
      packages = Setup.installs (fst (Setup.install_each S packages)) ++ rest
      /\ match snd (Setup.install_each S packages) with
         | inr _ =>
             rest = []
             /\ Forall (fun p => Setup.pip_install S p = inr tt) packages
         | inl e =>
             exists p before,
               Setup.installs (fst (Setup.install_each S packages))
               = before ++ [p]
               /\ Setup.pip_install S p = inl e
               /\ Forall (fun q => Setup.pip_install S q = inr tt) before
         end.
Proof.
  induction packages as [|p packages IH]; simpl.
  - split; [reflexivity|]. exists []. repeat split; auto.
  - destruct (Setup.pip_install S p) as [e|[]] eqn:E; simpl.
    + split; [reflexivity|]. exists packages. split; [reflexivity|].
      exists p, []. repeat split; auto.
    + destruct (Setup.install_each S packages) as [t r] eqn:Et. simpl in *.
      destruct IH as [Hi (rest & Hp & Hr)].
      split; [exact Hi|].
      exists rest. split; [now rewrite Hp at 1|].
      destruct r as [e|u].
      * destruct Hr as (p' & before & Hd & Hp' & Hb).
        exists p', (p :: before). rewrite Hd. repeat split; auto.
      * destruct Hr as [-> Hall]. split; [reflexivity|].
        constructor; assumption.
Qed.

Lemma import_each_facts (S : Setup.system) (modules : list string) :
  Setup.installs (fst (Setup.import_each S modules)) = []
  /\ (forall line,
         ~ In (Setup.PrintLine line) (fst (Setup.import_each S modules)))
  /\ match snd (Setup.import_each S modules) with
     | Setup.Returned =>
         Setup.imports (fst (Setup.import_each S modules)) = modules
         /\ Forall (fun m => Setup.import_module S m = inr tt) modules
     | Setup.Exited _ => False
     | Setup.Raised e =>
         exists m, In m modules
                   /\ (Setup.import_module S m = inl (Setup.CalledProcessError e)
                       \/ Setup.import_module S m
                          = inl (Setup.OtherException e))
     end.
Proof.
  induction modules as [|m modules IH]; simpl.
  - repeat split; auto.
  - destruct (Setup.import_module S m) as [[e|e]|[]] eqn:E; simpl.
    + repeat split; auto.
      * intros line [H|[]]; discriminate.
      * exists m. auto.
    + repeat split; auto.
      * intros line [H|[]]; discriminate.
      * exists m. auto.
    + destruct (Setup.import_each S modules) as [t r]. simpl in *.
      destruct IH as (Hi & Hp & Hr). repeat split; auto.
      * intros line [H|H]; [discriminate|]. exact (Hp line H).
      * destruct r as [|c|e]; auto.
        -- destruct Hr as [Hm Hall]. split; [now rewrite Hm|].
           constructor; assumption.
        -- destruct Hr as (m' & Hin & Hm'). exists m'. auto.
Qed.

(** The shape of a call of the bootstrap, by what pip answers. *)
Lemma install_and_import_packages_cases (S : Setup.system) :
  match Setup.pip_freeze S with
  | inl (Setup.CalledProcessError e) =>
      Setup.install_and_import_packages S
      = ([Setup.PipFreeze; Setup.failed_to_install e], Setup.Exited 1)
  | inl (Setup.OtherException e) =>
      Setup.install_and_import_packages S
      = ([Setup.PipFreeze], Setup.Raised e)
  | inr output =>
      let loop :=
        Setup.install_each S (Setup.missing_packages (Setup.lower output)) in
      match snd loop with
      | inl (Setup.CalledProcessError e) =>
          Setup.install_and_import_packages S
          = (Setup.PipFreeze :: fst loop ++ [Setup.failed_to_install e],
             Setup.Exited 1)
      | inl (Setup.OtherException e) =>
          Setup.install_and_import_packages S
          = (Setup.PipFreeze :: fst loop, Setup.Raised e)
      | inr _ =>
          Setup.install_and_import_packages S
          = (Setup.PipFreeze
               :: fst loop
               ++ fst (Setup.import_each S Setup.imported_modules),
             snd (Setup.import_each S Setup.imported_modules))
      end
  end.
Proof.
  unfold Setup.install_and_import_packages, Setup.check_and_install.
  destruct (Setup.pip_freeze S) as [[e|e]|output]; try reflexivity.
  cbv zeta.
  destruct (Setup.install_each S (Setup.missing_packages (Setup.lower output)))
    as [t [[e|e]|u]]; try reflexivity.
  cbn [fst snd].
  now destruct (Setup.import_each S Setup.imported_modules).
Qed.

(** X1: whatever happens, a package pip is asked to install is one of the
    four required packages whose lower-cased name does not occur anywhere
    in the lower-cased output of [pip freeze]. *)
Theorem installs_only_missing (S : Setup.system) (p : string) :
  In p (Setup.installs (fst (Setup.install_and_import_packages S))) ->
  exists output,
    Setup.pip_freeze S = inr output
    /\ In p Setup.required_packages
    /\ ~ Setup.occurs_in (Setup.lower p) (Setup.lower output).
Proof.
  intros Hin.
  pose proof (install_and_import_packages_cases S) as C.
  destruct (Setup.pip_freeze S) as [[e|e]|output] eqn:F;
    try (rewrite C in Hin; simpl in Hin; contradiction).
  exists output. split; [reflexivity|].
  cbv zeta in C.
  set (missing := Setup.missing_packages (Setup.lower output)) in *.
  destruct (install_each_prefix S missing) as [_ (rest & Hm & _)].
  assert (Hp : In p (Setup.installs (fst (Setup.install_each S missing)))).
  { destruct (snd (Setup.install_each S missing)) as [[e|e]|u];
      rewrite C in Hin; cbn [fst] in Hin;
      change (Setup.PipFreeze :: ?t) with ([Setup.PipFreeze] ++ t) in Hin;
      rewrite ?installs_app in Hin;
      rewrite ?(proj1 (import_each_facts S Setup.imported_modules)) in Hin;
      unfold Setup.failed_to_install in Hin;
      cbn [Setup.installs app] in Hin;
      rewrite ?app_nil_r in Hin; exact Hin. }
  assert (Hmiss : In p missing) by (rewrite Hm; apply in_or_app; now left).
  unfold missing, Setup.missing_packages in Hmiss.
  apply filter_In in Hmiss. destruct Hmiss as [Hreq Hneg].
  split; [exact Hreq|].
  intros Hocc. apply contains_occurs_in in Hocc.
  rewrite Hocc in Hneg. discriminate.
Qed.

Lemma installs_only_missing_witness :
  exists output,
    Setup.pip_freeze
      (Setup.healthy ("NumPy==1.26.4" ++ nl ++ "attackcti==0.4.4"))
    = inr output
    /\ In "pydantic" Setup.required_packages
    /\ ~ Setup.occurs_in (Setup.lower "pydantic") (Setup.lower output).
Proof.
  apply (installs_only_missing
           (Setup.healthy ("NumPy==1.26.4" ++ nl ++ "attackcti==0.4.4"))
           "pydantic").
  vm_compute. right. left. reflexivity.
Defined.

(** X2: when the bootstrap returns, [pip freeze] has answered, every
    required package either occurs in its lower-cased output or has been
    installed by a call that succeeded, and the three modules have been
    imported, in the order of lines 28-30. *)
Theorem returned_means_ready (S : Setup.system) :
  snd (Setup.install_and_import_packages S) = Setup.Returned ->
  exists output,
    Setup.pip_freeze S = inr output
    /\ (forall p, In p Setup.required_packages ->
                  Setup.occurs_in (Setup.lower p) (Setup.lower output)
                  \/ (In p (Setup.installs
                              (fst (Setup.install_and_import_packages S)))
                      /\ Setup.pip_install S p = inr tt))
    /\ Setup.imports (fst (Setup.install_and_import_packages S))
       = Setup.imported_modules.
Proof.
  intros Hret.
  pose proof (install_and_import_packages_cases S) as C.
  destruct (Setup.pip_freeze S) as [[e|e]|output] eqn:F;
    try (rewrite C in Hret; discriminate).
  exists output. split; [reflexivity|].
  cbv zeta in C.
  set (missing := Setup.missing_packages (Setup.lower output)) in *.
  destruct (install_each_prefix S missing) as [Himp (rest & Hm & Hr)].
  destruct (snd (Setup.install_each S missing)) as [[e|e]|u];
    try (rewrite C in Hret; discriminate).
  destruct Hr as [-> Hall]. rewrite app_nil_r in Hm.
  rewrite C in *. cbn [fst snd] in *.
  pose proof (import_each_facts S Setup.imported_modules) as (Hi & Hp & Hs).
  rewrite Hret in Hs. destruct Hs as [Hs _].
  split.
  - intros p Hreq.
    destruct (Setup.contains (Setup.lower p) (Setup.lower output)) eqn:Ec.
    + left. now apply contains_occurs_in.
    + right.
      assert (Hmiss : In p missing).
      { unfold missing, Setup.missing_packages. apply filter_In.
        split; [exact Hreq|]. now rewrite Ec. }
      split.
      * change (Setup.PipFreeze :: ?t) with ([Setup.PipFreeze] ++ t).
        rewrite !installs_app, Hi, <- Hm. cbn [Setup.installs app].
        now rewrite app_nil_r.
      * rewrite Forall_forall in Hall. now apply Hall.
  - change (Setup.PipFreeze :: ?t) with ([Setup.PipFreeze] ++ t).
    rewrite !imports_app, Himp, Hs. reflexivity.
Qed.

Lemma returned_means_ready_witness :
  exists output,
    Setup.pip_freeze (Setup.healthy "attackcti==0.4.4") = inr output
    /\ (forall p, In p Setup.required_packages ->
                  Setup.occurs_in (Setup.lower p) (Setup.lower output)
                  \/ (In p (Setup.installs
                              (fst (Setup.install_and_import_packages
                                      (Setup.healthy "attackcti==0.4.4"))))
                      /\ Setup.pip_install (Setup.healthy "attackcti==0.4.4") p
                         = inr tt))
    /\ Setup.imports
         (fst (Setup.install_and_import_packages
                 (Setup.healthy "attackcti==0.4.4")))
       = Setup.imported_modules.
Proof.
  apply (returned_means_ready (Setup.healthy "attackcti==0.4.4")).
  reflexivity.
Defined.

(** X3: the bootstrap exits only with status 1, and only because
    [pip freeze] or the installation of a missing package raised
    CalledProcessError; the message "Failed to install required
    packages: ..." is then the last thing it does, and no module is
    imported. *)
Theorem exit_status_is_1 (S : Setup.system) (code : Z) :
  snd (Setup.install_and_import_packages S) = Setup.Exited code ->
  code = 1%Z
  /\ Setup.imports (fst (Setup.install_and_import_packages S)) = []
  /\ exists e before,
      fst (Setup.install_and_import_packages S)
      = before ++ [Setup.failed_to_install e]
      /\ (Setup.pip_freeze S = inl (Setup.CalledProcessError e)
          \/ exists p,
              In p Setup.required_packages
              /\ Setup.pip_install S p = inl (Setup.CalledProcessError e)
              /\ exists done,
                  Setup.installs (fst (Setup.install_and_import_packages S))
                  = done ++ [p]).
Proof.
  intros Hex.
  pose proof (install_and_import_packages_cases S) as C.
  destruct (Setup.pip_freeze S) as [[e|e]|output] eqn:F.
  - rewrite C in *. inversion Hex. subst code.
    repeat split. exists e, [Setup.PipFreeze]. split; [reflexivity|now left].
  - rewrite C in Hex. discriminate.
  - cbv zeta in C.
    set (missing := Setup.missing_packages (Setup.lower output)) in *.
    destruct (install_each_prefix S missing) as [Himp (rest & Hm & Hr)].
    destruct (snd (Setup.install_each S missing)) as [[e|e]|u].
    + rewrite C in *. inversion Hex. subst code. cbn [fst].
      split; [reflexivity|]. split.
      * change (Setup.PipFreeze :: ?t) with ([Setup.PipFreeze] ++ t).
        rewrite !imports_app, Himp. reflexivity.
      * exists e, (Setup.PipFreeze :: fst (Setup.install_each S missing)).
        split; [reflexivity|]. right.
        destruct Hr as (p & before & Hd & Hp & _).
        exists p. split; [|split; [exact Hp|]].
        -- assert (Hin : In p missing).
           { rewrite Hm, Hd. apply in_or_app. left.
             apply in_or_app. right. now left. }
           unfold missing, Setup.missing_packages in Hin.
           now apply filter_In in Hin.
        -- exists before.
           change (Setup.PipFreeze :: ?t) with ([Setup.PipFreeze] ++ t).
           rewrite !installs_app, Hd. unfold Setup.failed_to_install.
           cbn [Setup.installs app]. now rewrite app_nil_r.
    + rewrite C in Hex. discriminate.
    + rewrite C in Hex. cbn [snd] in Hex.
      pose proof (import_each_facts S Setup.imported_modules) as (_ & _ & Hs).
      rewrite Hex in Hs. destruct Hs.
Qed.

Lemma exit_status_is_1_witness :
  1%Z = 1%Z
  /\ Setup.imports
       (fst (Setup.install_and_import_packages
               (Setup.failing_on "numpy" "attackcti==0.4.4")))
     = []
  /\ exists e before,
      fst (Setup.install_and_import_packages
             (Setup.failing_on "numpy" "attackcti==0.4.4"))
      = before ++ [Setup.failed_to_install e]
      /\ (Setup.pip_freeze (Setup.failing_on "numpy" "attackcti==0.4.4")
          = inl (Setup.CalledProcessError e)
          \/ exists p,
              In p Setup.required_packages
              /\ Setup.pip_install
                   (Setup.failing_on "numpy" "attackcti==0.4.4") p
                 = inl (Setup.CalledProcessError e)
              /\ exists done,
                  Setup.installs
                    (fst (Setup.install_and_import_packages
                            (Setup.failing_on "numpy" "attackcti==0.4.4")))
                  = done ++ [p]).
Proof.
  apply (exit_status_is_1 (Setup.failing_on "numpy" "attackcti==0.4.4") 1).
  reflexivity.
Defined.

Lemma install_each_stops (S : Setup.system) (p : string)
      (e : Setup.raised) (after : list string) :
  Setup.pip_install S p = inl e ->
  forall before,
    Forall (fun q => Setup.pip_install S q = inr tt) before ->
    Setup.installs (fst (Setup.install_each S (before ++ p :: after)))
    = before ++ [p]
    /\ snd (Setup.install_each S (before ++ p :: after)) = inl e.
Proof.
  intros Hp. induction before as [|q before IH]; intros Hall; simpl.
  - rewrite Hp. split; reflexivity.
  - inversion Hall as [|? ? Hq Hall']; subst. rewrite Hq.
    destruct (IH Hall') as [Hi Hs].
    destruct (Setup.install_each S (before ++ p :: after)) as [t r].
    simpl in *. now rewrite Hi, Hs.
Qed.

(** X4: when the installation of a missing package raises, the packages
    missing before it have been installed, it is the last one pip is asked
    for, the ones after it are not attempted and nothing is imported; the
    bootstrap exits with status 1 on CalledProcessError and lets any other
    exception through. *)
Theorem first_failure_stops (S : Setup.system) (output p : string)
        (e : Setup.raised) (before after : list string) :
  Setup.pip_freeze S = inr output ->
  Setup.missing_packages (Setup.lower output) = before ++ p :: after ->
  Forall (fun q => Setup.pip_install S q = inr tt) before ->
  Setup.pip_install S p = inl e ->
  Setup.installs (fst (Setup.install_and_import_packages S)) = before ++ [p]
  /\ Setup.imports (fst (Setup.install_and_import_packages S)) = []
  /\ snd (Setup.install_and_import_packages S)
     = match e with
       | Setup.CalledProcessError _ => Setup.Exited 1
       | Setup.OtherException m => Setup.Raised m
       end.
Proof.
  intros F Hm Hall Hp.
  pose proof (install_and_import_packages_cases S) as C.
  rewrite F in C. cbv zeta in C. rewrite Hm in C.
  destruct (install_each_stops S p e after Hp before Hall) as [Hi Hs].
  destruct (install_each_prefix S (before ++ p :: after)) as [Himp _].
  rewrite Hs in C. destruct e as [m|m]; rewrite C; cbn [fst snd];
    change (Setup.PipFreeze :: ?t) with ([Setup.PipFreeze] ++ t);
    rewrite ?installs_app, ?imports_app, Hi, Himp;
    unfold Setup.failed_to_install; cbn [Setup.installs Setup.imports app];
    rewrite ?app_nil_r; repeat split.
Qed.

Lemma first_failure_stops_witness :
  Setup.installs
    (fst (Setup.install_and_import_packages
            (Setup.failing_on "numpy" "attackcti==0.4.4")))
  = ["sentence-transformers"] ++ ["numpy"]
  /\ Setup.imports
       (fst (Setup.install_and_import_packages
               (Setup.failing_on "numpy" "attackcti==0.4.4")))
     = []
  /\ snd (Setup.install_and_import_packages
            (Setup.failing_on "numpy" "attackcti==0.4.4"))
     = Setup.Exited 1.
Proof.
  apply (first_failure_stops
           (Setup.failing_on "numpy" "attackcti==0.4.4")
           "attackcti==0.4.4" "numpy"
           (Setup.CalledProcessError "non-zero exit status 1")
           ["sentence-transformers"] ["pydantic"]).
  - reflexivity.
  - vm_compute. reflexivity.
  - repeat constructor.
  - reflexivity.
Defined.

Lemma filter_none {A : Type} (f : A -> bool) (l : list A) :
  (forall x, In x l -> f x = false) -> filter f l = [].
Proof.
  induction l as [|x l IH]; intros H; simpl; [reflexivity|].
  rewrite (H x (or_introl eq_refl)). apply IH. intros y Hy. apply H. now right.
Qed.

(** X5: when the lower-cased name of every required package occurs
    somewhere in the lower-cased output of [pip freeze], even inside the
    name of another package, the bootstrap installs nothing and prints
    nothing: after [pip freeze] it goes straight to the imports. *)
Theorem nothing_to_install (S : Setup.system) (output : string) :
  Setup.pip_freeze S = inr output ->
  (forall p, In p Setup.required_packages ->
             Setup.occurs_in (Setup.lower p) (Setup.lower output)) ->
  Setup.install_and_import_packages S
  = (Setup.PipFreeze :: fst (Setup.import_each S Setup.imported_modules),
     snd (Setup.import_each S Setup.imported_modules))
  /\ Setup.installs (fst (Setup.install_and_import_packages S)) = []
  /\ forall line,
      ~ In (Setup.PrintLine line) (fst (Setup.install_and_import_packages S)).
Proof.
  intros F Hocc.
  pose proof (install_and_import_packages_cases S) as C.
  rewrite F in C. cbv zeta in C.
  assert (Hm : Setup.missing_packages (Setup.lower output) = []).
  { unfold Setup.missing_packages. apply filter_none. intros p Hp.
    apply Hocc, contains_occurs_in in Hp. now rewrite Hp. }
  rewrite Hm in C. cbn [Setup.install_each fst snd app] in C.
  pose proof (import_each_facts S Setup.imported_modules) as (Hi & Hp & _).
  rewrite C. cbn [fst]. split; [reflexivity|]. split.
  - cbn [Setup.installs]. exact Hi.
  - intros line [H|H]; [discriminate|]. exact (Hp line H).
Qed.

Lemma nothing_to_install_witness :
  Setup.install_and_import_packages (Setup.healthy freeze_with_lookalikes)
  = (Setup.PipFreeze
       :: fst (Setup.import_each (Setup.healthy freeze_with_lookalikes)
                                 Setup.imported_modules),
     snd (Setup.import_each (Setup.healthy freeze_with_lookalikes)
                            Setup.imported_modules))
  /\ Setup.installs
       (fst (Setup.install_and_import_packages
               (Setup.healthy freeze_with_lookalikes))) = []
  /\ forall line,
      ~ In (Setup.PrintLine line)
           (fst (Setup.install_and_import_packages
                   (Setup.healthy freeze_with_lookalikes))).
Proof.
  apply (nothing_to_install (Setup.healthy freeze_with_lookalikes)
                            freeze_with_lookalikes).
  - reflexivity.
  - intros p [<-|[<-|[<-|[<-|[]]]]];
      apply contains_occurs_in; vm_compute; reflexivity.
Defined.

(** ** Ranking *)

(** X6: the matches returned are the best ones: a candidate that is not
    among the top matches has a similarity no greater than that of every
    candidate that is. *)
Theorem best_candidates_selected (NP : ArgSort) (OK : ArgSortLaws NP)
        (similarities0 : list pyfloat) (i j : nat) :
  In i (top_matches_indices similarities0) ->
  (j < length similarities0)%nat ->
  ~ In j (top_matches_indices similarities0) ->
  (score similarities0 j <= score similarities0 i)%Q.
Proof. apply top_matches_indices_best. Qed.

Lemma best_candidates_selected_witness :
  (score (map Float [1 # 4; 3 # 4; 1 # 2; 3 # 4; 0]) 0
   <= score (map Float [1 # 4; 3 # 4; 1 # 2; 3 # 4; 0]) 2)%Q.
Proof.
  apply (best_candidates_selected stable_argsort stable_argsort_laws
           (map Float [1 # 4; 3 # 4; 1 # 2; 3 # 4; 0]) 2 0).
  - vm_compute. right. right. left. reflexivity.
  - simpl. lia.
  - vm_compute. intros [H|[H|[H|[]]]]; discriminate.
Defined.

(** X7: with at most three candidates every candidate is returned, and
    returned once: the details of the matches are a rearrangement of the
    candidate list. *)
Theorem few_candidates_all_returned (NP : ArgSort) (OK : ArgSortLaws NP)
        (technique_details : list Detail.t) (similarities0 : list pyfloat) :
  length similarities0 = length technique_details ->
  (length technique_details <= 3)%nat ->
  exists ms,
    top_matches technique_details similarities0 = inr ms
    /\ Permutation (map detail ms) technique_details.
Proof.
  intros Hlen Hn. unfold top_matches.
  destruct (matches_at_ok technique_details similarities0
                          (top_matches_indices similarities0))
    as [ms [E F]].
  { intros i Hi. apply top_matches_indices_in_range in Hi. lia. }
  exists ms. split; [exact E|].
  apply (matches_of_all_indices _ _ _ _ F).
  rewrite <- Hlen. apply top_matches_indices_all. lia.
Qed.

Lemma few_candidates_all_returned_witness :
  exists ms,
    @top_matches stable_argsort [T1204; T1566]
                 (map Float [34 # 100; 81 # 100]) = inr ms
    /\ Permutation (map detail ms) [T1204; T1566].
Proof.
  apply (few_candidates_all_returned stable_argsort stable_argsort_laws
           [T1204; T1566] (map Float [34 # 100; 81 # 100])).
  - reflexivity.
  - simpl. lia.
Defined.

(** ** Runs of the background task *)

Lemma error_messages_app (t t' : list action) :
  error_messages (t ++ t') = error_messages t ++ error_messages t'.
Proof.
  induction t as [|a t IH]; simpl; [reflexivity|].
  destruct a; simpl; now rewrite ?IH.
Qed.

(** X8: a run of the task ends in exactly one of three ways: it shows one
    error dialog, puts nothing and returns; or it shows no dialog, puts
    one result, the formatted top matches, and returns; or it raises after
    the milestones 20 and 50, having shown no dialog and put nothing. *)
Theorem one_outcome_per_run (NP : ArgSort) (L : libs) (sentence : string) :
  (exists message,
      error_messages
        (fst (find_similar_techniques L sentence update_progress))
      = [message]
      /\ puts (fst (find_similar_techniques L sentence update_progress)) = []
      /\ snd (find_similar_techniques L sentence update_progress) = inr tt)
  \/ (error_messages
        (fst (find_similar_techniques L sentence update_progress)) = []
      /\ (exists top,
             puts (fst (find_similar_techniques L sentence update_progress))
             = [format_result top])
      /\ snd (find_similar_techniques L sentence update_progress) = inr tt)
  \/ (error_messages
        (fst (find_similar_techniques L sentence update_progress)) = []
      /\ puts (fst (find_similar_techniques L sentence update_progress)) = []
      /\ progress_calls
           (fst (find_similar_techniques L sentence update_progress))
         = [20; 50]%Z
      /\ exists e,
          snd (find_similar_techniques L sentence update_progress) = inl e).
Proof.
  pose proof (find_similar_techniques_run NP L sentence) as R.
  destruct R as [e E | emb e E F | emb ts t e E F D
                 | emb ts embs sims sims0 top E F].
  - left. eexists. repeat split.
  - left. eexists. repeat split.
  - right. right. destruct D as [-> | ->]; repeat split; now exists e.
  - right. left. split; [reflexivity|]. split; [now exists top|reflexivity].
Qed.

(** X9: the [try] blocks of lines 43-55 also cover the progress callback.
    When the query is encoded but the callback raises at 20, the task
    shows "Error encoding sentence: ..." and returns without fetching;
    when the techniques are fetched but the callback raises at 50, it
    shows "Error fetching techniques ..." and returns. *)
Theorem callback_failure_reported (NP : ArgSort) (L : libs)
        (sentence : string) (progress_callback : Z -> W unit)
        (sentence_embedding : embedding) (e : exn) :
  model_encode L sentence = inr sentence_embedding ->
  (forall t,
      progress_callback 20%Z = (t, inl e) ->
      find_similar_techniques L sentence progress_callback
      = (CallEncode sentence :: t ++ [encoding_error e], inr tt))
  /\ (forall t20 t techniques,
         progress_callback 20%Z = (t20, inr tt) ->
         lift_get_techniques L = inr techniques ->
         progress_callback 50%Z = (t, inl e) ->
         find_similar_techniques L sentence progress_callback
         = (CallEncode sentence
              :: t20 ++ CallGetTechniques :: t ++ [fetching_error e],
            inr tt)).
Proof.
  intros E. split.
  - intros t H20. unfold find_similar_techniques. rewrite E.
    cbn -[top_matches format_result]. rewrite H20.
    cbn -[top_matches format_result].
    now rewrite !app_nil_r.
  - intros t20 t techniques H20 F H50.
    unfold find_similar_techniques. rewrite E, F.
    cbn -[top_matches format_result]. rewrite H20, H50.
    cbn -[top_matches format_result].
    rewrite !app_nil_r. reflexivity.
Qed.

Lemma callback_failure_reported_witness :
  @find_similar_techniques stable_argsort (answering [34 # 100; 81 # 100])
    "phishing email" (raising_at 20 "main thread is not in main loop")
  = (CallEncode "phishing email"
       :: [] ++ [encoding_error "main thread is not in main loop"],
     inr tt).
Proof.
  apply (proj1 (callback_failure_reported stable_argsort
                  (answering [34 # 100; 81 # 100]) "phishing email"
                  (raising_at 20 "main thread is not in main loop")
                  [1; 0] "main thread is not in main loop" eq_refl)).
  reflexivity.
Defined.

(** X10: when every library answers, with one similarity per technique,
    the task puts exactly one result; it has min(3, n) blocks for n
    techniques, and it is the empty string exactly when no technique was
    fetched. *)
Theorem result_has_min3_blocks (NP : ArgSort) (OK : ArgSortLaws NP)
        (L : libs) (sentence : string) (sentence_embedding : embedding)
        (techniques : list raw_technique)
        (descriptions_embeddings : list embedding)
        (row : list pyfloat) (rows : list (list pyfloat)) :
  model_encode L sentence = inr sentence_embedding ->
  lift_get_techniques L = inr techniques ->
  model_encode_batch L (descriptions_of techniques)
  = inr descriptions_embeddings ->
  pytorch_cos_sim L sentence_embedding descriptions_embeddings
  = inr (row :: rows) ->
  length row = length techniques ->
  exists top,
    puts (fst (find_similar_techniques L sentence update_progress))
    = [format_result top]
    /\ length top = Nat.min 3 (length techniques)
    /\ (format_result top = "" <-> techniques = []).
Proof.
  intros E F G H Hlen.
  destruct (matches_at_ok (map technique_detail techniques) row
                          (top_matches_indices row)) as [ms [Em Fm]].
  { intros i Hi. apply top_matches_indices_in_range in Hi.
    rewrite length_map. lia. }
  assert (Hn : length ms = Nat.min 3 (length techniques)).
  { rewrite <- (Forall2_length Fm), top_matches_indices_length.
    now rewrite Hlen. }
  assert (X : find_similar_techniques L sentence update_progress
              = (fetched sentence
                 ++ [CallEncodeBatch (descriptions_of techniques);
                     CallCosSim; QueuePut (format_result ms);
                     SetProgress 100; UpdateIdletasks], inr tt)).
  { unfold find_similar_techniques. rewrite E, F.
    cbn -[top_matches format_result].
    fold (descriptions_of techniques). rewrite G.
    cbn -[top_matches format_result]. rewrite H.
    cbn -[top_matches format_result].
    unfold top_matches. rewrite Em. reflexivity. }
  exists ms. rewrite X. split; [reflexivity|]. split; [exact Hn|].
  split.
  - intros Hempty. destruct ms as [|m ms'].
    + simpl in Hn. destruct techniques; [reflexivity|simpl in Hn; lia].
    + exfalso. unfold format_result in Hempty.
      destruct ms'; simpl in Hempty; discriminate.
  - intros ->. simpl in Hn. destruct ms; [reflexivity|discriminate].
Qed.

Lemma result_has_min3_blocks_witness :
  exists top,
    puts (fst (@find_similar_techniques stable_argsort
                 (answering [34 # 100; 81 # 100]) "phishing email"
                 update_progress))
    = [format_result top]
    /\ length top = Nat.min 3 (length [user_execution; phishing])
    /\ (format_result top = "" <-> [user_execution; phishing] = []).
Proof.
  apply (result_has_min3_blocks stable_argsort stable_argsort_laws
           (answering [34 # 100; 81 # 100]) "phishing email" [1; 0]
           [user_execution; phishing] [[1; 0]; [1; 0]]
           (map Float [34 # 100; 81 # 100]) []);
    reflexivity.
Defined.

(** ** The window *)

Lemma gui_eta (st : gui) :
  st = {| progress_bar := progress_bar st;
          result_text := result_text st;
          result_queue := result_queue st;
          dialogs := dialogs st;
          threads := threads st |}.
Proof. now destruct st. Qed.

(** X11: the timer takes the queued results first in, first out, one per
    tick: after k ticks the first k queued results have been appended to
    the display in queue order, the others are still queued, and nothing
    else has changed; ticks beyond the length of the queue do nothing. *)
Theorem ticks_drain_queue_in_order (NP : ArgSort) (k : nat) (st : gui) :
  run (repeat Tick k) st
  = {| progress_bar := progress_bar st;
       result_text :=
         (result_text st ++ concat_all (firstn k (result_queue st)))%string;
       result_queue := skipn k (result_queue st);
       dialogs := dialogs st;
       threads := threads st |}.
Proof.
  revert st. induction k as [|k IH]; intros st.
  - simpl. rewrite append_empty_r. apply gui_eta.
  - cbn [repeat]. rewrite run_cons, IH. simpl step. unfold check_queue.
    destruct (result_queue st) as [|r q] eqn:E.
    + rewrite E. destruct k; simpl; reflexivity.
    + simpl. now rewrite append_associative.
Qed.

(** X12: a submission clears the display but not the queue: a result that
    is still queued when a sentence is submitted survives the reset and is
    what the display shows after the next tick. *)
Theorem queued_result_survives_submit (NP : ArgSort) (L : libs)
        (sentence : string) (st : gui) (result : string)
        (queue : list string) :
  all_space sentence = false ->
  result_queue st = result :: queue ->
  result_queue (on_submit L sentence st) = result :: queue
  /\ result_text (on_submit L sentence st) = ""
  /\ result_text (check_queue (on_submit L sentence st)) = result.
Proof.
  intros Hs Hq. rewrite (on_submit_sentence NP L sentence st Hs).
  unfold check_queue. simpl. rewrite Hq. repeat split.
Qed.

Lemma queued_result_survives_submit_witness :
  result_queue
    (@on_submit stable_argsort (answering [9 # 10; 1 # 8])
                "macro in a document"
                (@run stable_argsort
                      (Submit (answering [34 # 100; 81 # 100])
                              "phishing email"
                              :: repeat (WorkerStep 0) 11)
                      initial))
  = first_result :: []
  /\ result_text
       (@on_submit stable_argsort (answering [9 # 10; 1 # 8])
                   "macro in a document"
                   (@run stable_argsort
                         (Submit (answering [34 # 100; 81 # 100])
                                 "phishing email"
                                 :: repeat (WorkerStep 0) 11)
                         initial))
     = ""
  /\ result_text
       (@check_queue
          (@on_submit stable_argsort (answering [9 # 10; 1 # 8])
                      "macro in a document"
                      (@run stable_argsort
                            (Submit (answering [34 # 100; 81 # 100])
                                    "phishing email"
                                    :: repeat (WorkerStep 0) 11)
                            initial)))
     = first_result.
Proof.
  apply (queued_result_survives_submit stable_argsort
           (answering [9 # 10; 1 # 8]) "macro in a document"
           (@run stable_argsort
                 (Submit (answering [34 # 100; 81 # 100]) "phishing email"
                         :: repeat (WorkerStep 0) 11)
                 initial)
           first_result []).
  - reflexivity.
  - vm_compute. reflexivity.
Defined.

Lemma worker_step_threads (NP : ArgSort) (i : nat) (st : gui) :
  length (threads (worker_step i st)) = length (threads st).
Proof.
  unfold worker_step.
  destruct (nth_error (threads st) i) as [[|a todo]|] eqn:E; try reflexivity.
  pose proof (firstn_skipn_middle _ _ E) as Hsplit.
  assert (Hl : length (firstn i (threads st)
                         ++ todo :: skipn (S i) (threads st))
               = length (threads st)).
  { rewrite <- Hsplit at 3. rewrite !length_app. reflexivity. }
  destruct a; simpl; exact Hl.
Qed.

(** X13: threads are started by submissions only, one for every submitted
    sentence that is not blank: after any schedule the number of threads
    has grown by the number of such submissions; worker steps, timer ticks
    and blank submissions start none. *)
Theorem one_thread_per_submission (NP : ArgSort) (schedule : list event)
        (st : gui) :
  length (threads (run schedule st))
  = (length (threads st) + started schedule)%nat.
Proof.
  revert st. induction schedule as [|ev schedule IH]; intros st.
  - simpl. lia.
  - rewrite run_cons, IH. destruct ev as [L s|i|]; simpl.
    + unfold on_submit. destruct (all_space s) eqn:Es.
      * apply strip_empty_iff in Es. rewrite Es. simpl. lia.
      * destruct (is_empty (strip s)) eqn:E.
        -- apply strip_empty_iff in E. congruence.
        -- simpl. rewrite length_app. simpl. lia.
    + rewrite (worker_step_threads NP). lia.
    + unfold check_queue. destruct (result_queue st); simpl; lia.
Qed.

Lemma In_skipn {A : Type} (x : A) (k : nat) :
  forall l, In x (skipn k l) -> In x l.
Proof.
  induction k as [|k IH]; intros [|y l]; simpl; try tauto.
  intros H. right. now apply IH.
Qed.

Lemma progress_calls_In (t : list action) (value : Z) :
  In (SetProgress value) t <-> In value (progress_calls t).
Proof.
  induction t as [|a t IH]; simpl; [tauto|].
  destruct a as [| | | |v| | |]; simpl; rewrite <- IH;
    try (split; [intros [H|H]; [discriminate|exact H]|intros H; now right]).
  split; intros [H|H]; try (now right); left; congruence.
Qed.

Lemma task_sets_milestones (NP : ArgSort) (L : libs) (sentence : string)
      (value : Z) :
  In (SetProgress value)
     (fst (find_similar_techniques L sentence update_progress)) ->
  value = 20%Z \/ value = 50%Z \/ value = 100%Z.
Proof.
  intros H. apply progress_calls_In in H.
  destruct (progress_calls_prefix NP L sentence) as [k Hk].
  rewrite Hk in H. apply In_firstn in H. simpl in H.
  destruct H as [<-|[<-|[<-|[]]]]; auto.
Qed.

(** X14: from the start of the program and under every schedule of
    submissions, worker steps and timer ticks, with any number of threads
    and whatever the libraries answer, the progress bar only ever shows 0,
    20, 50 or 100. *)
Theorem progress_bar_shows_milestones (NP : ArgSort)
        (schedule : list event) :
  milestone (progress_bar (run schedule initial)).
Proof.
  assert (G : forall st,
             milestone (progress_bar st) ->
             (forall T value,
                 In T (threads st) -> In (SetProgress value) T ->
                 milestone value) ->
             milestone (progress_bar (run schedule st))).
  { induction schedule as [|ev schedule IH]; intros st Hp Ht; [exact Hp|].
    rewrite run_cons. apply IH.
    - destruct ev as [L s|i|]; simpl.
      + unfold on_submit. destruct (is_empty (strip s)); simpl;
          [exact Hp|now left].
      + unfold worker_step.
        destruct (nth_error (threads st) i) as [[|a todo]|] eqn:E;
          try exact Hp.
        apply nth_error_In in E.
        destruct a; simpl; try exact Hp.
        apply (Ht _ _ E). now left.
      + unfold check_queue. destruct (result_queue st); exact Hp.
    - intros T value HT Hv. destruct ev as [L s|i|]; simpl in HT.
      + unfold on_submit in HT. destruct (is_empty (strip s)); simpl in HT;
          [now apply (Ht T)|].
        apply in_app_or in HT. destruct HT as [HT|[<-|[]]];
          [now apply (Ht T)|].
        apply task_sets_milestones in Hv. unfold milestone. tauto.
      + unfold worker_step in HT.
        destruct (nth_error (threads st) i) as [[|a todo]|] eqn:E;
          try (now apply (Ht T)).
        assert (HT' : In T (firstn i (threads st)
                              ++ todo :: skipn (S i) (threads st)))
          by (destruct a; exact HT).
        apply nth_error_In in E.
        apply in_app_or in HT'. destruct HT' as [H|[<-|H]].
        * apply In_firstn in H. now apply (Ht T).
        * apply (Ht _ _ E). now right.
        * apply In_skipn in H. now apply (Ht T).
      + unfold check_queue in HT. destruct (result_queue st);
          now apply (Ht T). }
  apply G; [now left|]. intros T value [].
Qed.

(** X15: when the task of a single submission raises after the fetch (the
    descriptions cannot be encoded, or the similarity cannot be computed),
    the user is told nothing: under every interleaving of the thread and
    the timer no dialog is shown, the display and the queue stay empty and
    the progress bar stays at 0, 20 or 50. *)
Theorem late_failure_is_silent (NP : ArgSort) (L : libs)
        (sentence : string) (e : exn) (schedule : list event) :
  all_space sentence = false ->
  snd (find_similar_techniques L sentence update_progress) = inl e ->
  no_submit schedule ->
  dialogs (run (Submit L sentence :: schedule) initial) = []
  /\ result_text (run (Submit L sentence :: schedule) initial) = ""
  /\ result_queue (run (Submit L sentence :: schedule) initial) = []
  /\ (progress_bar (run (Submit L sentence :: schedule) initial) = 0%Z
      \/ progress_bar (run (Submit L sentence :: schedule) initial) = 20%Z
      \/ progress_bar (run (Submit L sentence :: schedule) initial) = 50%Z).
Proof.
  intros Hs He Hns.
  set (quiet := fun st : gui =>
         exists todo,
           threads st = [todo]
           /\ puts todo = [] /\ error_messages todo = []
           /\ (forall v, In (SetProgress v) todo -> v = 20%Z \/ v = 50%Z)
           /\ dialogs st = [] /\ result_text st = ""
           /\ result_queue st = []
           /\ (progress_bar st = 0%Z \/ progress_bar st = 20%Z
               \/ progress_bar st = 50%Z)).
  assert (G : forall st, quiet st -> quiet (run schedule st)).
  { clear -Hns. induction Hns as [|ev schedule Hev _ IH]; intros st Hq;
      [exact Hq|].
    rewrite run_cons. apply IH. clear IH.
    destruct Hq as (todo & Ht & Hp & Hm & Hv & Hd & Hr & Hqu & Hb).
    destruct ev as [L s|i|]; [discriminate| |]; simpl.
    - unfold worker_step. rewrite Ht.
      destruct i as [|i]; simpl;
        [|destruct i; simpl; exists todo; repeat split; auto].
      destruct todo as [|a todo']; [exists []; repeat split; auto|].
      exists todo'.
      assert (Hv' : forall v, In (SetProgress v) todo' ->
                              v = 20%Z \/ v = 50%Z)
        by (intros v H; apply Hv; now right).
      destruct a as [| | | |v| | |queued]; simpl in *;
        try discriminate; repeat split; auto.
      all: destruct (Hv v (or_introl eq_refl)) as [-> | ->]; auto.
    - unfold check_queue. rewrite Hqu. exists todo. repeat split; auto. }
  rewrite run_cons. simpl step.
  rewrite (on_submit_sentence NP L sentence initial Hs).
  match goal with |- context [run schedule ?s] => set (st0 := s) end.
  assert (Q0 : quiet st0).
  { exists (fst (find_similar_techniques L sentence update_progress)).
    pose proof (find_similar_techniques_run NP L sentence) as R.
    destruct R as [e' E | emb e' E F | emb ts t e' E F D
                   | emb ts embs sims sims0 top E F];
      try discriminate He.
    split; [reflexivity|].
    destruct D as [-> | ->]; simpl; repeat split; auto;
      intros v H; repeat (destruct H as [H|H]; try discriminate);
      try (inversion H; auto); try destruct H. }
  destruct (G st0 Q0) as (todo & _ & _ & _ & _ & Hd & Hr & Hqu & Hb).
  repeat split; assumption.
Qed.

Lemma late_failure_is_silent_witness :
  dialogs (@run stable_argsort
                (Submit batch_down "phishing email"
                        :: repeat (WorkerStep 0) 9 ++ [Tick])
                initial) = []
  /\ result_text (@run stable_argsort
                       (Submit batch_down "phishing email"
                               :: repeat (WorkerStep 0) 9 ++ [Tick])
                       initial) = ""
  /\ result_queue (@run stable_argsort
                        (Submit batch_down "phishing email"
                                :: repeat (WorkerStep 0) 9 ++ [Tick])
                        initial) = []
  /\ (progress_bar (@run stable_argsort
                         (Submit batch_down "phishing email"
                                 :: repeat (WorkerStep 0) 9 ++ [Tick])
                         initial) = 0%Z
      \/ progress_bar (@run stable_argsort
                            (Submit batch_down "phishing email"
                                    :: repeat (WorkerStep 0) 9 ++ [Tick])
                            initial) = 20%Z
      \/ progress_bar (@run stable_argsort
                            (Submit batch_down "phishing email"
                                    :: repeat (WorkerStep 0) 9 ++ [Tick])
                            initial) = 50%Z).
Proof.
  apply (late_failure_is_silent stable_argsort batch_down
           "phishing email" "out of memory"
           (repeat (WorkerStep 0) 9 ++ [Tick])).
  - reflexivity.
  - vm_compute. reflexivity.
  - repeat constructor.
Defined.

(** ** Similarities in the result text *)

Lemma round_half_even_near_zero (q : Q) :
  (- (1 # 2) <= q <= 1 # 2)%Q -> round_half_even q = 0%Z.
Proof.
  destruct q as [n d]. unfold Qle, round_half_even. cbn [Qnum Qden Qopp].
  intros [Hlo Hhi].
  pose proof (Z.div_mod n (Z.pos d) ltac:(lia)) as Hdm.
  pose proof (Z.mod_pos_bound n (Z.pos d) ltac:(lia)) as Hr.
  set (f := (n / Z.pos d)%Z) in *. set (r := (n mod Z.pos d)%Z) in *.
  clearbody f r.
  assert (Hf : f = 0%Z \/ f = (-1)%Z) by nia.
  destruct Hf as [-> | ->].
  - destruct (2 * r ?= Z.pos d)%Z eqn:C; try reflexivity.
    rewrite Z.compare_gt_iff in C. lia.
  - destruct (2 * r ?= Z.pos d)%Z eqn:C; try reflexivity.
    rewrite Z.compare_lt_iff in C. lia.
Qed.

(** X16: a similarity within half a unit of the fourth decimal place of
    zero is written as 0.0000, and with a minus sign, as -0.0000, when its
    sign bit is set: when it is negative or the negative zero. *)
Theorem tiny_similarity_text (x : pyfloat) :
  (Qabs (number x) <= 1 # 20000)%Q ->
  format_4f x = ((if signbit x then "-" else "") ++ "0.0000")%string.
Proof.
  intros H. apply Qabs_Qle_condition in H. destruct H as [Hlo Hhi].
  unfold format_4f. rewrite round_half_even_near_zero.
  - reflexivity.
  - split; lra.
Qed.

Lemma tiny_similarity_text_witness :
  format_4f NegZero
  = ((if signbit NegZero then "-" else "") ++ "0.0000")%string.
Proof.
  apply (tiny_similarity_text NegZero).
  vm_compute. discriminate.
Defined.

Example tiny_similarity_texts :
  format_4f (Float (- (3 # 100000))) = "-0.0000"
  /\ format_4f (Float (3 # 100000)) = "0.0000"
  /\ format_4f (Float (5 # 100000)) = "0.0000"
  /\ format_4f (Float (15 # 100000)) = "0.0002".
Proof. repeat split; vm_compute; reflexivity. Qed.

Lemma round_half_even_bounded (q : Q) (b : Z) :
  (- inject_Z b <= q <= inject_Z b)%Q ->
  (- b <= round_half_even q <= b)%Z.
Proof.
  intros [Hlo Hhi].
  pose proof (round_half_even_close q) as Hc.
  apply Qabs_Qle_condition in Hc. destruct Hc as [Hc1 Hc2].
  set (r := round_half_even q) in *. clearbody r.
  assert (H1 : (inject_Z r <= inject_Z b + (1 # 2))%Q) by lra.
  assert (H2 : (- inject_Z b - (1 # 2) <= inject_Z r)%Q) by lra.
  unfold Qminus in H2.
  unfold Qle, Qplus, Qopp, inject_Z in H1, H2.
  cbn [Qnum Qden Pos.mul] in H1, H2. lia.
Qed.

(** X17: a similarity between -1 and 1 is written with the single integer
    digit 0 or 1 and four decimals, so every similarity has six
    characters, seven with the minus sign of one whose sign bit is set (a
    negative one or the negative zero). *)
Theorem similarity_text_width (x : pyfloat) :
  (- (1) <= number x <= 1)%Q ->
  String.length (format_4f x) = (if signbit x then 7 else 6)%nat
  /\ exists m,
      (0 <= m <= 10000)%Z
      /\ format_4f x
         = ((if signbit x then "-" else "")
              ++ (if (m <? 10000)%Z then "0." ++ fraction4 m
                  else "1.0000"))%string.
Proof.
  intros [Hlo Hhi].
  assert (Hb : (- 10000 <= round_half_even (number x * 10000) <= 10000)%Z).
  { assert (Hq : (- inject_Z 10000 <= number x * 10000 <= inject_Z 10000)%Q)
      by (change (inject_Z 10000) with (10000 # 1)%Q; split; lra).
    pose proof (round_half_even_bounded (number x * 10000) 10000 Hq). lia. }
  unfold format_4f.
  set (m := Z.abs (round_half_even (number x * 10000))) in *.
  assert (Hm : (0 <= m <= 10000)%Z) by (unfold m; lia).
  clearbody m.
  assert (E : (decimal (m / 10000) ++ "." ++ fraction4 (m mod 10000))%string
              = if (m <? 10000)%Z then ("0." ++ fraction4 m)%string
                else "1.0000").
  { destruct (m <? 10000)%Z eqn:C.
    - apply Z.ltb_lt in C.
      rewrite Z.div_small, Z.mod_small by lia. reflexivity.
    - apply Z.ltb_ge in C. assert (m = 10000%Z) by lia. subst m.
      reflexivity. }
  rewrite E. split.
  - destruct (signbit x), (m <? 10000)%Z; reflexivity.
  - exists m. split; [exact Hm|reflexivity].
Qed.

Lemma similarity_text_width_witness :
  String.length (format_4f NegZero) = (if signbit NegZero then 7 else 6)%nat
  /\ exists m,
      (0 <= m <= 10000)%Z
      /\ format_4f NegZero
         = ((if signbit NegZero then "-" else "")
              ++ (if (m <? 10000)%Z then "0." ++ fraction4 m
                  else "1.0000"))%string.
Proof.
  apply (similarity_text_width NegZero).
  split; vm_compute; discriminate.
Defined.

Example similarity_text_widths :
  String.length (format_4f (Float (- (1 # 3)))) = 7%nat
  /\ String.length (format_4f (Float (1 # 3))) = 6%nat
  /\ String.length (format_4f (Float 0)) = 6%nat
  /\ String.length (format_4f (neg (Float 0))) = 7%nat.
Proof. repeat split; vm_compute; reflexivity. Qed.

(** ** Any number of threads *)

(** X18: between submissions no result is lost, repeated or altered: once
    every thread has put what it had to put and the timer has emptied the
    queue, the display is what it was, followed by the results that were
    queued, followed by the results that were still to be put, each
    exactly once. *)
Theorem every_result_displayed_once (NP : ArgSort) (schedule : list event)
        (st : gui) :
  no_submit schedule ->
  pending (run schedule st) = [] ->
  result_queue (run schedule st) = [] ->
  exists done,
    Permutation done (pending st)
    /\ result_text (run schedule st)
       = (result_text st ++ concat_all (result_queue st)
                      ++ concat_all done)%string.
Proof.
  intros Hns Hp Hq.
  destruct (run_delivers schedule Hns st) as (done & Ed & Pd).
  exists done. rewrite Hp, app_nil_r in Pd. split; [exact Pd|].
  unfold delivered in Ed. rewrite Hq in Ed. simpl in Ed.
  rewrite append_empty_r in Ed. rewrite Ed.
  now rewrite append_associative.
Qed.

Lemma every_result_displayed_once_witness :
  exists done,
    Permutation done
      (pending
         (@run stable_argsort
               [Submit (answering [34 # 100; 81 # 100]) "phishing email";
                Submit (answering [9 # 10; 1 # 8]) "macro in a document"]
               initial))
    /\ result_text
         (@run stable_argsort
               (repeat (WorkerStep 1) 11 ++ repeat (WorkerStep 0) 11
                       ++ [Tick; Tick])
               (@run stable_argsort
                     [Submit (answering [34 # 100; 81 # 100])
                             "phishing email";
                      Submit (answering [9 # 10; 1 # 8])
                             "macro in a document"]
                     initial))
       = (result_text
            (@run stable_argsort
                  [Submit (answering [34 # 100; 81 # 100]) "phishing email";
                   Submit (answering [9 # 10; 1 # 8]) "macro in a document"]
                  initial)
          ++ concat_all
               (result_queue
                  (@run stable_argsort
                        [Submit (answering [34 # 100; 81 # 100])
                                "phishing email";
                         Submit (answering [9 # 10; 1 # 8])
                                "macro in a document"]
                        initial))
          ++ concat_all done)%string.
Proof.
  apply (every_result_displayed_once stable_argsort
           (repeat (WorkerStep 1) 11 ++ repeat (WorkerStep 0) 11
                   ++ [Tick; Tick])
           (@run stable_argsort
                 [Submit (answering [34 # 100; 81 # 100]) "phishing email";
                  Submit (answering [9 # 10; 1 # 8]) "macro in a document"]
                 initial)).
  - repeat constructor.
  - vm_compute. reflexivity.
  - vm_compute. reflexivity.
Defined.
